(** * Task-management service: authentication and task access control

    A shallow embedding of the two services of the NestJS application,
    [AuthService] (auth.service.ts) and [TasksService] (tasks.service.ts),
    together with the small part of the JavaScript runtime and of the
    TypeORM repositories they rely on, and the properties proved of them.

    Conventions of the embedding:
    - a JavaScript string is a [string] of 8-bit code units; code units
      above 255 are outside the model;
    - an optional property of an object ([x?: T], or a key that a caller
      may leave out) is an [option]: [None] is the absent key
      ([undefined]);
    - an [async] method that rejects is a computation that throws; the
      repositories are explicit state threaded through a state-and-error
      monad;
    - columns maintained by the database alone ([createdAt], [updatedAt])
      are not part of the entities. *)

From Stdlib Require Import String Ascii List ZArith Bool Lia Arith PeanoNat.
From Stdlib Require Import DecimalString DecimalNat.
Import ListNotations.

Local Open Scope string_scope.
Local Open Scope list_scope.

(** ** The JavaScript runtime the services use *)

Module Js.

(** Truthiness of an optional string: [undefined] and [''] are falsy. *)
Definition truthy (v : option string) : bool :=
  match v with
  | Some s => negb (s =? "")
  | None => false
  end.

(** Truthiness of an optional number: [undefined] and [0] are falsy. *)
Definition truthyNum (v : option Z) : bool :=
  match v with
  | Some z => negb (z =? 0)%Z
  | None => false
  end.

(** [v || d] on optional numbers. *)
Definition orNum (v : option Z) (d : Z) : Z :=
  match v with
  | Some z => if (z =? 0)%Z then d else z
  | None => d
  end.

(** The value read from a property known to be present. *)
Definition valueOf (v : option string) : string :=
  match v with
  | Some s => s
  | None => ""
  end.

Definition numOf (v : option Z) : Z :=
  match v with
  | Some z => z
  | None => 0%Z
  end.

(** [xs.includes(x)] on an array of strings. *)
Fixpoint includes (xs : list string) (x : string) : bool :=
  match xs with
  | [] => false
  | y :: ys => (y =? x) || includes ys x
  end.

(** *** Regular expressions

    The fragment of the regular-expression language that the e-mail
    pattern needs, matched by Brzozowski derivatives.  A pattern
    anchored with [^] and [$] is matched against the whole string. *)

Inductive Regex : Type :=
| RNone                                  (* matches nothing *)
| REps                                   (* matches the empty string *)
| RClass (p : ascii -> bool)             (* one character of a class *)
| RSeq (r s : Regex)
| RAlt (r s : Regex)
| RStar (r : Regex).

Definition RPlus (r : Regex) : Regex := RSeq r (RStar r).

Fixpoint nullable (r : Regex) : bool :=
  match r with
  | RNone => false
  | REps => true
  | RClass _ => false
  | RSeq r s => nullable r && nullable s
  | RAlt r s => nullable r || nullable s
  | RStar _ => true
  end.

Fixpoint deriv (c : ascii) (r : Regex) : Regex :=
  match r with
  | RNone => RNone
  | REps => RNone
  | RClass p => if p c then REps else RNone
  | RSeq r s =>
      if nullable r
      then RAlt (RSeq (deriv c r) s) (deriv c s)
      else RSeq (deriv c r) s
  | RAlt r s => RAlt (deriv c r) (deriv c s)
  | RStar r => RSeq (deriv c r) (RStar r)
  end.

(** [regex.test(s)] for a pattern anchored at both ends. *)
Fixpoint test (r : Regex) (s : string) : bool :=
  match s with
  | EmptyString => nullable r
  | String c s' => test (deriv c r) s'
  end.

(** The class [\s] on 8-bit code units: tab, line feed, vertical tab,
    form feed, carriage return, space and no-break space. *)
Definition isSpace (c : ascii) : bool :=
  let n := nat_of_ascii c in
  ((9 <=? n)%nat && (n <=? 13)%nat) || (n =? 32)%nat || (n =? 160)%nat.

Definition chr (a : ascii) : Regex := RClass (Ascii.eqb a).

(** *** Dates

    A value found where a date is expected: the string of a request
    body, or a [Date] object, whose time value is [None] when it is an
    Invalid Date. *)
Inductive DateValue : Type :=
| DateStr (s : string)
| DateObj (time : option Z).

Definition truthyDate (v : option DateValue) : bool :=
  match v with
  | Some (DateStr s) => negb (s =? "")
  | Some (DateObj _) => true
  | None => false
  end.

End Js.

(** ** Exceptions and the monad of the services *)

(** The exception classes of @nestjs/common that the services throw, and
    any other JavaScript error ([JsError]), such as the one a failed token
    verification raises. *)
Inductive Exception : Type :=
| BadRequestException (message : string)
| UnauthorizedException (message : string)
| ForbiddenException (message : string)
| NotFoundException (message : string)
| JsError (message : string).

Inductive Result (A : Type) : Type :=
| Ok (a : A)
| Throw (e : Exception).

Arguments Ok {A} a.
Arguments Throw {A} e.

(** A computation over a store [S]: it returns a value and the new store,
    or throws and leaves no store behind (each operation performs a single
    write, so nothing is half done when it throws). *)
Definition M (S A : Type) : Type := S -> Result (A * S).

Definition ret {S A} (a : A) : M S A := fun s => Ok (a, s).

Definition throw {S A} (e : Exception) : M S A := fun _ => Throw e.

Definition bind {S A B} (c : M S A) (k : A -> M S B) : M S B :=
  fun s =>
    match c s with
    | Ok (a, s') => k a s'
    | Throw e => Throw e
    end.

Definition gets {S A} (f : S -> A) : M S A := fun s => Ok (f s, s).

Definition modify {S} (f : S -> S) : M S unit := fun s => Ok (tt, f s).

(** [try { c } catch (error) { h error }] *)
Definition tryCatch {S A} (c : M S A) (h : Exception -> M S A) : M S A :=
  fun s =>
    match c s with
    | Ok r => Ok r
    | Throw e => h e s
    end.

Declare Scope monad_scope.
Delimit Scope monad_scope with monad.
Notation "x <- c ;; k" := (bind c (fun x => k))
  (at level 61, c at next level, right associativity) : monad_scope.
Notation "c ;;; k" := (bind c (fun _ => k))
  (at level 61, right associativity) : monad_scope.

(** The exception class, which is what the HTTP layer maps to a status. *)
Inductive ExceptionClass : Type :=
| BadRequest | Unauthorized | Forbidden | NotFound | OtherError.

Definition classOf (e : Exception) : ExceptionClass :=
  match e with
  | BadRequestException _ => BadRequest
  | UnauthorizedException _ => Unauthorized
  | ForbiddenException _ => Forbidden
  | NotFoundException _ => NotFound
  | JsError _ => OtherError
  end.

(** The class of the exception a result carries, if it is one. *)
Definition thrown {A} (r : Result A) : option ExceptionClass :=
  match r with
  | Ok _ => None
  | Throw e => Some (classOf e)
  end.

(** Primary keys generated by the store: the decimal form of a counter that
    only grows, so that a key is never handed out twice. *)
Definition genId (n : nat) : string := NilEmpty.string_of_uint (Nat.to_uint n).

(** ** Users and the authentication service (auth.service.ts) *)

(** Modelled from the spec: the [UserRole] enum of the user entity, whose
    declaration is not among the sources; its two values are the strings
    that the services compare roles with. *)
Module UserRole.
Definition USER : string := "USER".
Definition ADMIN : string := "ADMIN".
End UserRole.

(** Modelled from the spec: the user entity, whose declaration
    (users/entities/user.entity.ts) is not among the sources: unique id,
    unique e-mail address, hashed password and role, which are also the
    properties that the services and their tests read and write. *)
Record User : Type := mkUser {
  user_id : string;
  user_email : string;
  user_password : string;
  user_role : string
}.

(** [Partial<User>]: any of the properties may be absent. *)
Record PartialUser : Type := mkPartialUser {
  p_id : option string;
  p_email : option string;
  p_password : option string;
  p_role : option string
}.

(** A [User] seen as a [Partial<User>]: every property is present. *)
Definition asPartial (u : User) : PartialUser :=
  {| p_id := Some (user_id u);
     p_email := Some (user_email u);
     p_password := Some (user_password u);
     p_role := Some (user_role u) |}.

(** [Repository<User>]: the rows of the user table and the key counter. *)
Record UserRepository : Type := mkUserRepository {
  users : list User;
  nextUserId : nat
}.

(** The payload of a token, as signed and as decoded. *)
Record JwtPayload : Type := mkJwtPayload {
  sub : option string;
  email : option string;
  role : option string
}.

(** [JwtService]: [verify] is [None] when it throws (bad signature,
    malformed or expired token). *)
Record JwtService : Type := mkJwtService {
  sign : JwtPayload -> string;
  verify : string -> option JwtPayload
}.

(** The bcrypt primitives: [hash plaintext rounds], with the salt it draws
    taken as part of the function, and [compare plaintext hashed]. *)
Record Bcrypt : Type := mkBcrypt {
  hash : string -> nat -> string;
  compare : string -> string -> bool
}.

Record Tokens : Type := mkTokens {
  access_token : string;
  refresh_token : string
}.

Module UserRepo.

(** [findOne({ where: { email } })] *)
Definition findOneByEmail (e : string) : M UserRepository (option User) :=
  gets (fun repo => find (fun u => user_email u =? e) (users repo)).

(** [findOne({ where: { id } })] *)
Definition findOneById (i : string) : M UserRepository (option User) :=
  gets (fun repo => find (fun u => user_id u =? i) (users repo)).

(** [save(create({ email, password, role }))]: the new row receives its
    generated key and is returned. *)
Definition save (e pw r : string) : M UserRepository User :=
  fun repo =>
    let u := {| user_id := genId (nextUserId repo);
                user_email := e;
                user_password := pw;
                user_role := r |} in
    Ok (u, {| users := users repo ++ [u];
              nextUserId := S (nextUserId repo) |}).

End UserRepo.

Module AuthService.

Import Js.
Local Open Scope monad_scope.

(** [/^[^\s@]+@[^\s@]+\.[^\s@]+$/] *)
Definition notSpaceAt : Regex :=
  RClass (fun c => negb (isSpace c || Ascii.eqb c "@"%char)).

Definition emailRegex : Regex :=
  RSeq (RPlus notSpaceAt)
    (RSeq (chr "@"%char)
       (RSeq (RPlus notSpaceAt)
          (RSeq (chr "."%char) (RPlus notSpaceAt)))).

Definition isValidEmail (e : string) : bool := test emailRegex e.

Section Service.

Variable jwtService : JwtService.
Variable refreshJwtService : JwtService.
Variable bcrypt : Bcrypt.

Definition register (e password : string) : M UserRepository User :=
  if negb (isValidEmail e) then
    throw (BadRequestException "Invalid email format")
  else if (String.length password <? 6)%nat then
    throw (BadRequestException "Password must be at least 6 characters long")
  else
    existingUser <- UserRepo.findOneByEmail e ;;
    match existingUser with
    | Some _ => throw (BadRequestException "Email already exists")
    | None =>
        let hashedPassword := hash bcrypt password 10 in
        let r := if e =? "admin@example.com"
                 then UserRole.ADMIN else UserRole.USER in
        UserRepo.save e hashedPassword r
    end.

Definition validateUser (e password : string)
  : M UserRepository (option PartialUser) :=
  found <- UserRepo.findOneByEmail e ;;
  match found with
  | None => ret None
  | Some user =>
      let isPasswordValid := compare bcrypt password (user_password user) in
      if negb isPasswordValid then ret None
      else
        (* const { password: _, ...result } = user *)
        ret (Some {| p_id := Some (user_id user);
                     p_email := Some (user_email user);
                     p_password := None;
                     p_role := Some (user_role user) |})
  end.

Definition login (user : PartialUser) : Tokens :=
  let payload := {| sub := p_id user;
                    email := p_email user;
                    role := p_role user |} in
  let accessToken := sign jwtService payload in
  let refreshToken := sign refreshJwtService payload in
  {| access_token := accessToken; refresh_token := refreshToken |}.

Definition refreshToken (token : string) : M UserRepository Tokens :=
  tryCatch
    (match verify refreshJwtService token with
     | None => throw (JsError "JsonWebTokenError")
     | Some payload =>
         if negb (truthy (sub payload))
            || negb (truthy (email payload))
            || negb (truthy (role payload))
         then throw (UnauthorizedException "Invalid token payload")
         else
           found <- UserRepo.findOneById (valueOf (sub payload)) ;;
           match found with
           | None => throw (UnauthorizedException "User not found")
           | Some user => ret (login (asPartial user))
           end
     end)
    (fun _ => throw (UnauthorizedException "Invalid refresh token")).

End Service.

End AuthService.

(** ** Tasks and the task service (tasks.service.ts) *)

(** Modelled from the spec: the [TaskStatus] enum of the task entity, whose
    declaration is not among the sources; [values] is
    [Object.values(TaskStatus)]. *)
Module TaskStatus.
Definition TODO : string := "TODO".
Definition IN_PROGRESS : string := "IN_PROGRESS".
Definition DONE : string := "DONE".
Definition values : list string := [TODO; IN_PROGRESS; DONE].
End TaskStatus.

(** Modelled from the spec: the task entity, whose declaration
    (tasks/entities/task.entity.ts) is not among the sources: unique id,
    title, optional description, status, optional due date and owning user.
    [task_user] is the [user] relation (the owner) and [task_userId] its
    join column, as the services and their tests use them.  At run time
    [status] holds whatever string the caller supplied, which is why the
    service checks it. *)
Record Task : Type := mkTask {
  task_id : string;
  task_title : string;
  task_description : option string;
  task_status : string;
  task_dueDate : option Js.DateValue;
  task_user : User;
  task_userId : string
}.

(** [CreateTaskDto], as it reaches the service: the title may be missing. *)
Record CreateTaskDto : Type := mkCreateTaskDto {
  dto_title : option string;
  dto_description : option string;
  dto_status : option string;
  dto_dueDate : option Js.DateValue
}.

(** [Partial<Task>], the type of the patch that [update] takes. *)
Record PartialTask : Type := mkPartialTask {
  pt_id : option string;
  pt_title : option string;
  pt_description : option string;
  pt_status : option string;
  pt_dueDate : option Js.DateValue;
  pt_user : option User;
  pt_userId : option string
}.

(** [Object.assign(task, patch)]: every property present in the patch
    overwrites the task's, every other property of the task stays. *)
Definition assign (task : Task) (patch : PartialTask) : Task :=
  {| task_id := match pt_id patch with Some v => v | None => task_id task end;
     task_title :=
       match pt_title patch with Some v => v | None => task_title task end;
     task_description :=
       match pt_description patch with
       | Some v => Some v
       | None => task_description task
       end;
     task_status :=
       match pt_status patch with Some v => v | None => task_status task end;
     task_dueDate :=
       match pt_dueDate patch with
       | Some v => Some v
       | None => task_dueDate task
       end;
     task_user :=
       match pt_user patch with Some v => v | None => task_user task end;
     task_userId :=
       match pt_userId patch with Some v => v | None => task_userId task end |}.

(** An entity with its join column set to a key. *)
Definition withUserId (task : Task) (key : string) : Task :=
  {| task_id := task_id task;
     task_title := task_title task;
     task_description := task_description task;
     task_status := task_status task;
     task_dueDate := task_dueDate task;
     task_user := task_user task;
     task_userId := key |}.

(** [Repository<Task>]: the rows of the task table, each with its owner
    joined in, and the key counter.  The order of the list stands for the
    order in which the database hands out the rows of a query that has no
    ORDER BY. *)
Record TaskRepository : Type := mkTaskRepository {
  tasks : list Task;
  nextTaskId : nat
}.

(** The query builder: the conditions of the WHERE clause, OFFSET and
    LIMIT. *)
Record QueryBuilder : Type := mkQueryBuilder {
  qb_conditions : list (Task -> bool);
  qb_skip : option Z;
  qb_take : option Z
}.

Module TaskRepo.

Definition hasId (i : string) (t : Task) : bool := task_id t =? i.

(** [findOne({ where: { id }, relations: ['user'] })] *)
Definition findOne (i : string) : M TaskRepository (option Task) :=
  gets (fun repo => find (hasId i) (tasks repo)).

(** [save(create({ ...createTaskDto, user }))]: the new row receives its
    generated key, the join column of its owner and, when no status was
    given, the default status, which the spec gives as TODO.  The values
    are stored as given: a column type that refuses a value is outside the
    model. *)
Definition insert (dto : CreateTaskDto) (user : User)
  : M TaskRepository Task :=
  fun repo =>
    let t := {| task_id := genId (nextTaskId repo);
                task_title := Js.valueOf (dto_title dto);
                task_description := dto_description dto;
                task_status :=
                  match dto_status dto with
                  | Some s => s
                  | None => TaskStatus.TODO
                  end;
                task_dueDate := dto_dueDate dto;
                task_user := user;
                task_userId := user_id user |} in
    Ok (t, {| tasks := tasks repo ++ [t];
              nextTaskId := S (nextTaskId repo) |}).

(** [save(task)] for an entity that has its key.  The row under that key is
    rewritten, and comes last in the table from then on; when no row has the
    key the entity is added.  The join column is never written from the
    [userId] property of the entity: its value is the key of the loaded
    [user] relation.  So when the relation is the stored one the column
    stays as stored and the entity is returned as it is, and when the
    relation differs (or the row is new) the column becomes the key of the
    relation, on the row and on the entity returned. *)
Definition save (t : Task) : M TaskRepository Task :=
  fun repo =>
    let others := filter (fun r => negb (hasId (task_id t) r)) (tasks repo) in
    match find (hasId (task_id t)) (tasks repo) with
    | Some row =>
        if user_id (task_user t) =? user_id (task_user row) then
          let stored := withUserId t (task_userId row) in
          Ok (t, {| tasks := others ++ [stored];
                    nextTaskId := nextTaskId repo |})
        else
          let stored := withUserId t (user_id (task_user t)) in
          Ok (stored, {| tasks := others ++ [stored];
                         nextTaskId := nextTaskId repo |})
    | None =>
        let stored := withUserId t (user_id (task_user t)) in
        Ok (stored, {| tasks := others ++ [stored];
                       nextTaskId := nextTaskId repo |})
    end.

(** [remove(task)] *)
Definition remove (t : Task) : M TaskRepository unit :=
  modify (fun repo =>
    {| tasks := filter (fun r => negb (hasId (task_id t) r)) (tasks repo);
       nextTaskId := nextTaskId repo |}).

Definition createQueryBuilder : QueryBuilder :=
  {| qb_conditions := []; qb_skip := None; qb_take := None |}.

(** [where] sets the WHERE clause, [andWhere] adds a conjunct to it. *)
Definition where_ (c : Task -> bool) (qb : QueryBuilder) : QueryBuilder :=
  {| qb_conditions := [c]; qb_skip := qb_skip qb; qb_take := qb_take qb |}.

Definition andWhere (c : Task -> bool) (qb : QueryBuilder) : QueryBuilder :=
  {| qb_conditions := qb_conditions qb ++ [c];
     qb_skip := qb_skip qb; qb_take := qb_take qb |}.

Definition skip (n : Z) (qb : QueryBuilder) : QueryBuilder :=
  {| qb_conditions := qb_conditions qb;
     qb_skip := Some n; qb_take := qb_take qb |}.

Definition take (n : Z) (qb : QueryBuilder) : QueryBuilder :=
  {| qb_conditions := qb_conditions qb;
     qb_skip := qb_skip qb; qb_take := Some n |}.

Definition selected (qb : QueryBuilder) (t : Task) : bool :=
  forallb (fun c => c t) (qb_conditions qb).

(** An OFFSET or a LIMIT below zero, which the database refuses. *)
Definition negative (v : option Z) : bool :=
  match v with
  | Some n => (n <? 0)%Z
  | None => false
  end.

(** [getManyAndCount()]: the rows of the page, and the number of rows
    that satisfy the WHERE clause whatever the page.  The query fails when
    OFFSET or LIMIT is negative. *)
Definition getManyAndCount (qb : QueryBuilder)
  : M TaskRepository (list Task * nat) :=
  if negative (qb_skip qb) || negative (qb_take qb) then
    throw (JsError "QueryFailedError")
  else
  gets (fun repo =>
    let matching := filter (selected qb) (tasks repo) in
    let after :=
      match qb_skip qb with
      | Some n => skipn (Z.to_nat n) matching
      | None => matching
      end in
    let page :=
      match qb_take qb with
      | Some n => firstn (Z.to_nat n) after
      | None => after
      end in
    (page, length matching)).

End TaskRepo.

Record TaskPage : Type := mkTaskPage {
  page_tasks : list Task;
  page_total : nat
}.

Module TasksService.

Import Js.
Local Open Scope monad_scope.

Section Service.

(** [Date.parse]: the time value of a date string, [None] when the
    string is not a date (NaN). *)
Variable dateParse : string -> option Z.

(** [new Date(v).getTime()] *)
Definition getTime (v : DateValue) : option Z :=
  match v with
  | DateStr s => dateParse s
  | DateObj t => t
  end.

(** [v && isNaN(new Date(v).getTime())] *)
Definition invalidDate (v : option DateValue) : bool :=
  truthyDate v &&
  match v with
  | Some d => match getTime d with None => true | Some _ => false end
  | None => false
  end.

(** [v && !Object.values(TaskStatus).includes(v)] *)
Definition invalidStatus (v : option string) : bool :=
  truthy v && negb (includes TaskStatus.values (valueOf v)).

Definition create (createTaskDto : CreateTaskDto) (user : User)
  : M TaskRepository Task :=
  if negb (truthy (dto_title createTaskDto)) then
    throw (BadRequestException "Title is required")
  else if invalidStatus (dto_status createTaskDto) then
    throw (BadRequestException "Invalid task status")
  else if invalidDate (dto_dueDate createTaskDto) then
    throw (BadRequestException "Invalid due date format")
  else
    TaskRepo.insert createTaskDto user.

(** ['task.dueDate = :dueDate'] on the stored time values.  An Invalid
    Date as parameter equals no stored value here; what the database does
    with such a parameter is outside the model, and the results on when a
    listing returns leave it out. *)
Definition dueDateIs (d : option Z) (t : Task) : bool :=
  match task_dueDate t with
  | Some v =>
      match getTime v, d with
      | Some a, Some b => (a =? b)%Z
      | _, _ => false
      end
  | None => false
  end.

(** The [dueDate] filter is a [Date] object, given by its time value; an
    object is truthy whatever its time value. *)
Definition findAll (user : User) (status : option string)
    (dueDate : option (option Z)) (page limit : option Z)
  : M TaskRepository TaskPage :=
  let queryBuilder := TaskRepo.createQueryBuilder in
  let queryBuilder :=
    if negb (user_role user =? "ADMIN")
    then TaskRepo.where_ (fun t => task_userId t =? user_id user) queryBuilder
    else queryBuilder in
  let queryBuilder :=
    if truthy status
    then TaskRepo.andWhere (fun t => task_status t =? valueOf status) queryBuilder
    else queryBuilder in
  let queryBuilder :=
    match dueDate with
    | Some d => TaskRepo.andWhere (dueDateIs d) queryBuilder
    | None => queryBuilder
    end in
  let skip :=
    if truthyNum page
    then ((numOf page - 1) * orNum limit 10)%Z
    else 0%Z in
  let take := orNum limit 10 in
  r <- TaskRepo.getManyAndCount
         (TaskRepo.take take (TaskRepo.skip skip queryBuilder)) ;;
  ret {| page_tasks := fst r; page_total := snd r |}.

Definition findOne (id : string) (user : User) : M TaskRepository Task :=
  found <- TaskRepo.findOne id ;;
  match found with
  | None =>
      throw (NotFoundException ("Task with ID " ++ id ++ " not found"))
  | Some task =>
      if negb (user_role user =? "ADMIN")
         && negb (user_id (task_user task) =? user_id user)
      then throw (ForbiddenException
                    "You do not have permission to access this task")
      else ret task
  end.

Definition update (id : string) (updateTaskDto : PartialTask) (user : User)
  : M TaskRepository Task :=
  task <- findOne id user ;;
  if invalidStatus (pt_status updateTaskDto) then
    throw (BadRequestException "Invalid task status")
  else if invalidDate (pt_dueDate updateTaskDto) then
    throw (BadRequestException "Invalid due date format")
  else
    TaskRepo.save (assign task updateTaskDto).

Definition remove (id : string) (user : User) : M TaskRepository unit :=
  task <- findOne id user ;;
  TaskRepo.remove task.

End Service.

End TasksService.

(** ** The vocabulary of the specification *)

(** The authorization rule: an admin may act on any task, anyone else on
    the tasks whose owner they are. *)
Definition entitled (u : User) (t : Task) : Prop :=
  user_role u = UserRole.ADMIN \/ user_id (task_user t) = user_id u.

(** The optional exact-match filters of a listing. *)
Definition filtersOk (dateParse : string -> option Z)
    (status : option string) (dueDate : option (option Z)) (t : Task) : bool :=
  (if Js.truthy status then task_status t =? Js.valueOf status else true)
  && match dueDate with
     | Some d => TasksService.dueDateIs dateParse d t
     | None => true
     end.

(** The rows a listing is about: those of the acting user unless an admin
    asks, narrowed by the filters. *)
Definition matches (dateParse : string -> option Z) (u : User)
    (status : option string) (dueDate : option (option Z)) (t : Task) : bool :=
  ((user_role u =? UserRole.ADMIN) || (task_userId t =? user_id u))
  && filtersOk dateParse status dueDate t.

(** The join column of every row is the key of the row's owner. *)
Definition joined (repo : TaskRepository) : Prop :=
  forall t, In t (tasks repo) -> task_userId t = user_id (task_user t).

(** A patch that names neither the key nor the owner of the task: the shape
    of the [UpdateTaskDto] that the HTTP layer lets through. *)
Definition dtoShaped (patch : PartialTask) : Prop :=
  pt_id patch = None /\ pt_user patch = None /\ pt_userId patch = None.

(** Every key in the table was handed out by the counter. *)
Definition keysIssued (repo : TaskRepository) : Prop :=
  forall t, In t (tasks repo) ->
    exists n, (n < nextTaskId repo)%nat /\ task_id t = genId n.

(** The invariant behind ownership: the keys in the table were issued by
    the counter, the key numbered [n] is one of them, and every row under
    that key is owned by [owner]. *)
Definition ownedBy (n : nat) (owner : User) (repo : TaskRepository) : Prop :=
  keysIssued repo
  /\ (n < nextTaskId repo)%nat
  /\ forall t, In t (tasks repo) -> task_id t = genId n -> task_user t = owner.

(** The calls that write to the task table. *)
Inductive TaskCall : Type :=
| CallCreate (dto : CreateTaskDto) (user : User)
| CallUpdate (id : string) (patch : PartialTask) (user : User)
| CallRemove (id : string) (user : User).

(** A call that throws leaves the table as it was. *)
Definition runCall (dateParse : string -> option Z) (c : TaskCall)
    (repo : TaskRepository) : TaskRepository :=
  match c with
  | CallCreate dto user =>
      match TasksService.create dateParse dto user repo with
      | Ok (_, repo') => repo'
      | Throw _ => repo
      end
  | CallUpdate id patch user =>
      match TasksService.update dateParse id patch user repo with
      | Ok (_, repo') => repo'
      | Throw _ => repo
      end
  | CallRemove id user =>
      match TasksService.remove id user repo with
      | Ok (_, repo') => repo'
      | Throw _ => repo
      end
  end.

Definition runCalls (dateParse : string -> option Z) (cs : list TaskCall)
    (repo : TaskRepository) : TaskRepository :=
  fold_left (fun r c => runCall dateParse c r) cs repo.

Definition callDtoShaped (c : TaskCall) : Prop :=
  match c with
  | CallUpdate _ patch _ => dtoShaped patch
  | _ => True
  end.

(** A patch that names neither the key of the task nor its [user]. *)
Definition keepsKeyAndOwner (patch : PartialTask) : Prop :=
  pt_id patch = None /\ pt_user patch = None.

Definition callKeepsKeyAndOwner (c : TaskCall) : Prop :=
  match c with
  | CallUpdate _ patch _ => keepsKeyAndOwner patch
  | _ => True
  end.

(** A patch that names neither the [user] of the task nor its join column,
    which the store keeps in step with each other. *)
Definition namesNoOwner (patch : PartialTask) : Prop :=
  pt_user patch = None /\ pt_userId patch = None.

(** A property of a decoded payload is missing when the key is absent or
    holds the empty string, which is when [!payload.key] holds. *)
Definition missing (v : option string) : Prop := v = None \/ v = Some "".

(** The user table has a row with this e-mail address. *)
Definition registered (e : string) (repo : UserRepository) : Prop :=
  exists u, In u (users repo) /\ user_email u = e.

(** ** Sample collaborators and data *)

Module Sample.

(** A date parser that knows one date. *)
Definition dateParse (s : string) : option Z :=
  if s =? "2024-04-15T00:00:00.000Z" then Some 1713139200000%Z else None.

Definition bcrypt : Bcrypt :=
  {| hash := fun pw _ => ("$2b$10$" ++ pw)%string;
     compare := fun pw h => h =? ("$2b$10$" ++ pw)%string |}.

(** A token service that signs by naming the subject and verifies the
    few tokens it recognises. *)
Definition jwt (tag : string) : JwtService :=
  {| sign := fun p => (tag ++ ":" ++ Js.valueOf (sub p))%string;
     verify := fun tok =>
       if tok =? (tag ++ ":0")%string
       then Some {| sub := Some "0";
                    email := Some "test@example.com";
                    role := Some "USER" |}
       else if tok =? (tag ++ ":partial")%string
       then Some {| sub := Some "0"; email := None; role := Some "USER" |}
       else if tok =? (tag ++ ":gone")%string
       then Some {| sub := Some "7";
                    email := Some "gone@example.com";
                    role := Some "USER" |}
       else None |}.

Definition noUsers : UserRepository := {| users := []; nextUserId := 0 |}.

Definition alice : User :=
  {| user_id := "0"; user_email := "test@example.com";
     user_password := "$2b$10$password123"; user_role := "USER" |}.

Definition bob : User :=
  {| user_id := "1"; user_email := "other@example.com";
     user_password := "$2b$10$password123"; user_role := "USER" |}.

Definition admin : User :=
  {| user_id := "2"; user_email := "admin@example.com";
     user_password := "$2b$10$password123"; user_role := "ADMIN" |}.

Definition oneUser : UserRepository :=
  {| users := [alice]; nextUserId := 1 |}.

Definition noTasks : TaskRepository := {| tasks := []; nextTaskId := 0 |}.

Definition dto (title : string) : CreateTaskDto :=
  {| dto_title := Some title; dto_description := Some "Test Description";
     dto_status := Some "TODO"; dto_dueDate := None |}.

Definition statusPatch (s : string) : PartialTask :=
  {| pt_id := None; pt_title := None; pt_description := None;
     pt_status := Some s; pt_dueDate := None;
     pt_user := None; pt_userId := None |}.

Definition ownerPatch (u : User) : PartialTask :=
  {| pt_id := None; pt_title := None; pt_description := None;
     pt_status := None; pt_dueDate := None;
     pt_user := Some u; pt_userId := None |}.

Definition userIdPatch (key : string) : PartialTask :=
  {| pt_id := None; pt_title := None; pt_description := None;
     pt_status := None; pt_dueDate := None;
     pt_user := None; pt_userId := Some key |}.

(** The table after [alice] created one task. *)
Definition aliceTask : Task :=
  {| task_id := "0"; task_title := "Test Task";
     task_description := Some "Test Description";
     task_status := "TODO"; task_dueDate := None;
     task_user := alice; task_userId := "0" |}.

Definition oneTask : TaskRepository :=
  {| tasks := [aliceTask]; nextTaskId := 1 |}.

(** [n] tasks created by [user], one call after the other. *)
Definition created (n : nat) (user : User) : TaskRepository :=
  runCalls dateParse (repeat (CallCreate (dto "Task") user) n) noTasks.

End Sample.

(** ** The meaning of regular expressions *)

(** The strings a regular expression matches, as the language it denotes;
    [Js.test] decides it. *)
Inductive Matches : Js.Regex -> string -> Prop :=
| MEps : Matches Js.REps ""
| MClass (p : ascii -> bool) (c : ascii) :
    p c = true -> Matches (Js.RClass p) (String c "")
| MSeq (r s : Js.Regex) (x y : string) :
    Matches r x -> Matches s y -> Matches (Js.RSeq r s) (x ++ y)
| MAltL (r s : Js.Regex) (x : string) :
    Matches r x -> Matches (Js.RAlt r s) x
| MAltR (r s : Js.Regex) (x : string) :
    Matches s x -> Matches (Js.RAlt r s) x
| MStarNil (r : Js.Regex) : Matches (Js.RStar r) ""
| MStarApp (r : Js.Regex) (x y : string) :
    Matches r x -> Matches (Js.RStar r) y -> Matches (Js.RStar r) (x ++ y).

(** Every character of the string is in the class. *)
Fixpoint allChars (p : ascii -> bool) (s : string) : bool :=
  match s with
  | EmptyString => true
  | String c s' => p c && allChars p s'
  end.

(** A stretch of an e-mail address: not empty, and free of white space and
    of the at sign. *)
Definition addressPart (s : string) : Prop :=
  s <> ""
  /\ allChars (fun c => negb (Js.isSpace c || Ascii.eqb c "@"%char)) s = true.

(** The number of occurrences of a character in a string. *)
Fixpoint countChar (a : ascii) (s : string) : nat :=
  match s with
  | EmptyString => 0
  | String c s' => (if Ascii.eqb c a then 1 else 0) + countChar a s'
  end.

(** ** The passport strategies (auth/strategies/jwt.strategy.ts) *)

(** [JwtStrategy.validate]: the acting user that a request carries once its
    access token has been verified. *)
Module JwtStrategy.
Definition validate (payload : JwtPayload) : PartialUser :=
  {| p_id := sub payload;
     p_email := email payload;
     p_password := None;
     p_role := role payload |}.
End JwtStrategy.

(** [RefreshTokenStrategy.validate] *)
Module RefreshTokenStrategy.
Definition validate (payload : JwtPayload) : PartialUser :=
  {| p_id := sub payload;
     p_email := email payload;
     p_password := None;
     p_role := role payload |}.
End RefreshTokenStrategy.

(** ** Further vocabulary *)

(** The payload that [login] signs for a user. *)
Definition payloadOf (user : PartialUser) : JwtPayload :=
  {| sub := p_id user; email := p_email user; role := p_role user |}.

(** A user table in order: no two rows share an address or a key, and
    every key was handed out by the counter. *)
Definition userTableOk (repo : UserRepository) : Prop :=
  NoDup (map user_email (users repo))
  /\ NoDup (map user_id (users repo))
  /\ forall u, In u (users repo) ->
       exists n, (n < nextUserId repo)%nat /\ user_id u = genId n.

(** ** The task controller (tasks/tasks.controller.ts) *)

(** [UpdateTaskDto] (tasks/dto/task.dto.ts): the body of a PATCH request
    once the validation pipe, which runs with [whitelist: true], has dropped
    every property the class does not declare. *)
Record UpdateTaskDto : Type := mkUpdateTaskDto {
  ud_title : option string;
  ud_description : option string;
  ud_status : option string;
  ud_dueDate : option Js.DateValue
}.

(** The DTO seen as the [Partial<Task>] that the service takes. *)
Definition asPatch (dto : UpdateTaskDto) : PartialTask :=
  {| pt_id := None;
     pt_title := ud_title dto;
     pt_description := ud_description dto;
     pt_status := ud_status dto;
     pt_dueDate := ud_dueDate dto;
     pt_user := None;
     pt_userId := None |}.

Module TasksController.

Import Js.

(** A number as a query parameter delivers it: an integer, or NaN when the
    text was not a number.  Fractions are outside the model. *)
Inductive JsNumber : Type :=
| NaN
| Num (z : Z).

(** [v !== undefined && (isNaN(Number(v)) || Number(v) < 1)] *)
Definition notPositive (v : option JsNumber) : bool :=
  match v with
  | None => false
  | Some NaN => true
  | Some (Num z) => (z <? 1)%Z
  end.

(** The number handed on to the service; NaN is falsy there, as
    [undefined] is. *)
Definition numArg (v : option JsNumber) : option Z :=
  match v with
  | Some (Num z) => Some z
  | _ => None
  end.

Section Controller.

Variable dateParse : string -> option Z.

Definition create (createTaskDto : CreateTaskDto) (user : User)
  : M TaskRepository Task :=
  TasksService.create dateParse createTaskDto user.

Definition findAll (status dueDate : option string)
    (page limit : option JsNumber) (user : User)
  : M TaskRepository TaskPage :=
  if notPositive page then
    throw (BadRequestException "Page must be a positive number")
  else if notPositive limit then
    throw (BadRequestException "Limit must be a positive number")
  else
    TasksService.findAll dateParse user status
      (if truthy dueDate then Some (dateParse (valueOf dueDate)) else None)
      (numArg page) (numArg limit).

Definition findOne (id : string) (user : User) : M TaskRepository Task :=
  TasksService.findOne id user.

Definition update (id : string) (updateTaskDto : UpdateTaskDto) (user : User)
  : M TaskRepository Task :=
  TasksService.update dateParse id (asPatch updateTaskDto) user.

Definition remove (id : string) (user : User) : M TaskRepository unit :=
  TasksService.remove id user.

End Controller.

End TasksController.

(** The tasks on a page of a listing. *)
Definition listed (dateParse : string -> option Z) (u : User)
    (status : option string) (dueDate : option (option Z))
    (page limit : Z) (repo : TaskRepository) : list Task :=
  match TasksService.findAll dateParse u status dueDate
          (Some page) (Some limit) repo with
  | Ok (pg, _) => page_tasks pg
  | Throw _ => []
  end.

(** The status of a stored task is one of the enum, or empty. *)
Definition statusStored (t : Task) : Prop :=
  task_status t = "" \/ In (task_status t) TaskStatus.values.

(** No two rows of the task table share a key. *)
Definition keysUnique (repo : TaskRepository) : Prop :=
  NoDup (map task_id (tasks repo)).

(** * Properties *)

Ltac unfold_monad :=
  unfold bind, ret, throw, gets, modify, tryCatch in *.

(** ** Lists *)

Lemma In_firstn {A} (n : nat) (l : list A) (x : A) :
  In x (firstn n l) -> In x l.
Proof.
  intros H. rewrite <- (firstn_skipn n l). apply in_or_app. now left.
Qed.

Lemma In_skipn {A} (n : nat) (l : list A) (x : A) :
  In x (skipn n l) -> In x l.
Proof.
  intros H. rewrite <- (firstn_skipn n l). apply in_or_app. now right.
Qed.

(** ** Task access control *)

Section AccessControl.

Import TasksService.

Variable dateParse : string -> option Z.

Lemma entitled_test (u : User) (t : Task) :
  negb (user_role u =? "ADMIN")
  && negb (user_id (task_user t) =? user_id u) = false
  <-> entitled u t.
Proof.
  unfold entitled, UserRole.ADMIN.
  destruct (String.eqb_spec (user_role u) "ADMIN");
    destruct (String.eqb_spec (user_id (task_user t)) (user_id u));
    simpl; split; intros; auto; try discriminate.
  destruct H; contradiction.
Qed.

Lemma entitled_dec (u : User) (t : Task) : {entitled u t} + {~ entitled u t}.
Proof.
  destruct (negb (user_role u =? "ADMIN")
            && negb (user_id (task_user t) =? user_id u)) eqn:E.
  - right. intro H. apply entitled_test in H. congruence.
  - left. now apply entitled_test.
Qed.

(** What [findOne] does, case by case. *)
Lemma findOne_missing (id : string) (u : User) (repo : TaskRepository) :
  find (TaskRepo.hasId id) (tasks repo) = None ->
  findOne id u repo
  = Throw (NotFoundException ("Task with ID " ++ id ++ " not found")).
Proof.
  intros H. unfold findOne, TaskRepo.findOne. unfold_monad. now rewrite H.
Qed.

Lemma findOne_entitled (id : string) (u : User) (repo : TaskRepository)
    (t : Task) :
  find (TaskRepo.hasId id) (tasks repo) = Some t ->
  entitled u t ->
  findOne id u repo = Ok (t, repo).
Proof.
  intros H E. unfold findOne, TaskRepo.findOne. unfold_monad. rewrite H.
  apply entitled_test in E. now rewrite E.
Qed.

Lemma findOne_forbidden (id : string) (u : User) (repo : TaskRepository)
    (t : Task) :
  find (TaskRepo.hasId id) (tasks repo) = Some t ->
  ~ entitled u t ->
  findOne id u repo
  = Throw (ForbiddenException
             "You do not have permission to access this task").
Proof.
  intros H E. unfold findOne, TaskRepo.findOne. unfold_monad. rewrite H.
  destruct (negb (user_role u =? "ADMIN")
            && negb (user_id (task_user t) =? user_id u)) eqn:B; auto.
  apply entitled_test in B. contradiction.
Qed.

(** [update] and [remove] once [findOne] has returned. *)
Lemma update_after_findOne (id : string) (patch : PartialTask) (u : User)
    (repo : TaskRepository) (t : Task) :
  findOne id u repo = Ok (t, repo) ->
  update dateParse id patch u repo
  = if invalidStatus (pt_status patch) then
      Throw (BadRequestException "Invalid task status")
    else if invalidDate dateParse (pt_dueDate patch) then
      Throw (BadRequestException "Invalid due date format")
    else TaskRepo.save (assign t patch) repo.
Proof.
  intros H. unfold update, bind. rewrite H.
  destruct (invalidStatus (pt_status patch)); auto.
  destruct (invalidDate dateParse (pt_dueDate patch)); auto.
Qed.

Lemma update_throws_findOne (id : string) (patch : PartialTask) (u : User)
    (repo : TaskRepository) (e : Exception) :
  findOne id u repo = Throw e ->
  update dateParse id patch u repo = Throw e.
Proof. intros H. unfold update, bind. now rewrite H. Qed.

Lemma remove_after_findOne (id : string) (u : User) (repo : TaskRepository)
    (t : Task) :
  findOne id u repo = Ok (t, repo) ->
  remove id u repo = TaskRepo.remove t repo.
Proof. intros H. unfold remove, bind. now rewrite H. Qed.

Lemma remove_throws_findOne (id : string) (u : User) (repo : TaskRepository)
    (e : Exception) :
  findOne id u repo = Throw e ->
  remove id u repo = Throw e.
Proof. intros H. unfold remove, bind. now rewrite H. Qed.

Lemma save_total (t : Task) (repo : TaskRepository) :
  exists t' repo', TaskRepo.save t repo = Ok (t', repo').
Proof.
  unfold TaskRepo.save.
  destruct (find (TaskRepo.hasId (task_id t)) (tasks repo)) as [row|];
    [|eauto].
  destruct (user_id (task_user t) =? user_id (task_user row)); eauto.
Qed.

Lemma update_not_forbidden (id : string) (patch : PartialTask) (u : User)
    (repo : TaskRepository) (t : Task) :
  findOne id u repo = Ok (t, repo) ->
  thrown (update dateParse id patch u repo) <> Some Forbidden.
Proof.
  intros H. rewrite (update_after_findOne _ _ _ _ _ H).
  destruct (invalidStatus (pt_status patch)); [discriminate|].
  destruct (invalidDate dateParse (pt_dueDate patch)); [discriminate|].
  destruct (save_total (assign t patch) repo) as [t' [repo' ->]].
  discriminate.
Qed.

Lemma skip_orNum (page : option Z) (take : Z) :
  (if Js.truthyNum page then ((Js.numOf page - 1) * take)%Z else 0%Z)
  = ((Js.orNum page 1 - 1) * take)%Z.
Proof.
  destruct page as [p|]; cbn; [|reflexivity].
  destruct (p =? 0)%Z; cbn; reflexivity.
Qed.

(** What [findAll] does: the WHERE clause it builds is [matches], and the
    query fails when the OFFSET or the LIMIT it asks for is negative. *)
Lemma findAll_page (u : User) (status : option string)
    (dueDate : option (option Z)) (page limit : option Z)
    (repo : TaskRepository) :
  let matching := filter (matches dateParse u status dueDate) (tasks repo) in
  let take := Js.orNum limit 10 in
  let skip := ((Js.orNum page 1 - 1) * take)%Z in
  findAll dateParse u status dueDate page limit repo
  = if (skip <? 0)%Z || (take <? 0)%Z
    then Throw (JsError "QueryFailedError")
    else Ok ({| page_tasks :=
                  firstn (Z.to_nat take) (skipn (Z.to_nat skip) matching);
                page_total := length matching |}, repo).
Proof.
  intros matching take skip. unfold findAll, TaskRepo.getManyAndCount.
  cbn [TaskRepo.take TaskRepo.skip qb_skip qb_take TaskRepo.negative].
  rewrite skip_orNum. fold take skip.
  destruct ((skip <? 0)%Z || (take <? 0)%Z); [reflexivity|].
  unfold_monad. cbn [fst snd].
  match goal with
  | |- context [filter ?p (tasks repo)] =>
      assert (E : filter p (tasks repo) = matching)
  end.
  { apply filter_ext. intros t. unfold matches, filtersOk, TaskRepo.selected.
    unfold UserRole.ADMIN.
    destruct (user_role u =? "ADMIN"), (Js.truthy status), dueDate;
      cbn; rewrite ?andb_true_r; reflexivity. }
  now rewrite E.
Qed.

Lemma findAll_page_ok (u : User) (status : option string)
    (dueDate : option (option Z)) (page limit : option Z)
    (repo : TaskRepository) :
  (1 <= Js.orNum page 1)%Z -> (0 <= Js.orNum limit 10)%Z ->
  findAll dateParse u status dueDate page limit repo
  = Ok ({| page_tasks :=
             firstn (Z.to_nat (Js.orNum limit 10))
               (skipn (Z.to_nat ((Js.orNum page 1 - 1) * Js.orNum limit 10))
                  (filter (matches dateParse u status dueDate) (tasks repo)));
           page_total :=
             length (filter (matches dateParse u status dueDate)
                       (tasks repo)) |}, repo).
Proof.
  intros Hp Hl. rewrite findAll_page. cbv zeta.
  assert (((Js.orNum page 1 - 1) * Js.orNum limit 10 <? 0)%Z = false) as ->
    by (apply Z.ltb_ge; nia).
  assert ((Js.orNum limit 10 <? 0)%Z = false) as -> by (apply Z.ltb_ge; lia).
  reflexivity.
Qed.

(** A listing that returns never writes, and holds what [findAll_page]
    says. *)
Lemma findAll_returned (u : User) (status : option string)
    (dueDate : option (option Z)) (page limit : option Z)
    (repo repo' : TaskRepository) (pg : TaskPage) :
  findAll dateParse u status dueDate page limit repo = Ok (pg, repo') ->
  repo' = repo
  /\ page_tasks pg
     = firstn (Z.to_nat (Js.orNum limit 10))
         (skipn (Z.to_nat ((Js.orNum page 1 - 1) * Js.orNum limit 10))
            (filter (matches dateParse u status dueDate) (tasks repo)))
  /\ page_total pg
     = length (filter (matches dateParse u status dueDate) (tasks repo)).
Proof.
  rewrite findAll_page. cbv zeta.
  destruct (((Js.orNum page 1 - 1) * Js.orNum limit 10 <? 0)%Z
            || (Js.orNum limit 10 <? 0)%Z); [discriminate|].
  intros H. inversion H; subst. auto.
Qed.

End AccessControl.

(** C1. Task access control.  For a task [t] stored under [id] and an acting
    user [u]: when [u] is an admin or the owner of [t], [findOne] returns
    [t], [update] does not fail with Forbidden and [remove] succeeds; in
    every other case all three fail with Forbidden.  A listing that returns
    has not written to the table.  Asked by a user who is not an admin, its
    total counts, and its page is cut from, the rows that pass the filters
    and whose owner column is that user's key, so that every task on the
    page is the user's own (its owner has the user's key, on a table whose
    join column agrees with the relation).  Asked by an admin, its total
    counts, and its page is cut from, all rows that pass the filters,
    whoever owns them.  And a listing does return when the page and the
    limit, 1 and 10 when left out, are at least 1, the status asked for, if
    any, is one of the enum and the due date asked for is not an Invalid
    Date. *)
Theorem task_access_control
    (dateParse : string -> option Z) (repo : TaskRepository) (u : User) :
  (forall id t,
      find (TaskRepo.hasId id) (tasks repo) = Some t ->
      (entitled u t ->
         TasksService.findOne id u repo = Ok (t, repo)
         /\ (forall patch,
               thrown (TasksService.update dateParse id patch u repo)
               <> Some Forbidden)
         /\ (exists repo', TasksService.remove id u repo = Ok (tt, repo')))
      /\ (~ entitled u t ->
         thrown (TasksService.findOne id u repo) = Some Forbidden
         /\ (forall patch,
               thrown (TasksService.update dateParse id patch u repo)
               = Some Forbidden)
         /\ thrown (TasksService.remove id u repo) = Some Forbidden))
  /\ (forall status dueDate page limit,
        (forall pg repo',
            TasksService.findAll dateParse u status dueDate page limit repo
            = Ok (pg, repo') ->
            repo' = repo
            /\ (user_role u <> UserRole.ADMIN ->
                page_total pg
                = length (filter
                            (fun t => (task_userId t =? user_id u)
                                      && filtersOk dateParse status dueDate t)
                            (tasks repo))
                /\ page_tasks pg
                   = firstn (Z.to_nat (Js.orNum limit 10))
                       (skipn (Z.to_nat ((Js.orNum page 1 - 1)
                                         * Js.orNum limit 10))
                          (filter
                             (fun t => (task_userId t =? user_id u)
                                       && filtersOk dateParse status dueDate
                                            t)
                             (tasks repo)))
                /\ forall t, In t (page_tasks pg) ->
                     task_userId t = user_id u
                     /\ (joined repo -> user_id (task_user t) = user_id u))
            /\ (user_role u = UserRole.ADMIN ->
                page_total pg
                = length (filter (filtersOk dateParse status dueDate)
                            (tasks repo))
                /\ page_tasks pg
                   = firstn (Z.to_nat (Js.orNum limit 10))
                       (skipn (Z.to_nat ((Js.orNum page 1 - 1)
                                         * Js.orNum limit 10))
                          (filter (filtersOk dateParse status dueDate)
                             (tasks repo)))))
        /\ ((1 <= Js.orNum page 1)%Z -> (1 <= Js.orNum limit 10)%Z ->
            (Js.truthy status = true ->
             In (Js.valueOf status) TaskStatus.values) ->
            dueDate <> Some None ->
            exists pg,
              TasksService.findAll dateParse u status dueDate page limit repo
              = Ok (pg, repo))).
Proof.
  split.
  - intros id t Hfind. split; intros He.
    + pose proof (findOne_entitled id u repo t Hfind He) as Hone.
      split; [exact Hone|]. split.
      * intros patch. now apply update_not_forbidden with (t := t).
      * rewrite (remove_after_findOne _ _ _ _ Hone).
        unfold TaskRepo.remove, modify. eauto.
    + pose proof (findOne_forbidden id u repo t Hfind He) as Hone.
      split; [now rewrite Hone|]. split.
      * intros patch. now rewrite (update_throws_findOne _ _ _ _ _ _ Hone).
      * now rewrite (remove_throws_findOne _ _ _ _ Hone).
  - intros status dueDate page limit. split.
    + intros pg repo' H.
      destruct (findAll_returned dateParse _ _ _ _ _ _ _ _ H)
        as (Hr & Hp & Ht).
      split; [exact Hr|]. split; intros Hrole.
      * assert (E : filter (matches dateParse u status dueDate) (tasks repo)
                    = filter (fun t => (task_userId t =? user_id u)
                                       && filtersOk dateParse status dueDate
                                            t) (tasks repo)).
        { apply filter_ext. intros t. unfold matches.
          apply String.eqb_neq in Hrole. now rewrite Hrole. }
        rewrite E in Hp, Ht. split; [exact Ht|]. split; [exact Hp|].
        intros t Hin. rewrite Hp in Hin.
        apply In_firstn, In_skipn, filter_In in Hin.
        destruct Hin as [Hrow Hm].
        apply andb_true_iff in Hm. destruct Hm as [Hm _].
        apply String.eqb_eq in Hm. split; [exact Hm|].
        intros J. now rewrite <- (J t Hrow).
      * assert (E : filter (matches dateParse u status dueDate) (tasks repo)
                    = filter (filtersOk dateParse status dueDate)
                        (tasks repo)).
        { apply filter_ext. intros t. unfold matches.
          rewrite Hrole, String.eqb_refl. reflexivity. }
        rewrite E in Hp, Ht. split; assumption.
    + intros Hp Hl _ _. eexists. apply findAll_page_ok; lia.
Qed.

Lemma task_access_control_witness :
  TasksService.findOne "0" Sample.alice Sample.oneTask
  = Ok (Sample.aliceTask, Sample.oneTask)
  /\ TasksService.findOne "0" Sample.admin Sample.oneTask
     = Ok (Sample.aliceTask, Sample.oneTask)
  /\ thrown (TasksService.findOne "0" Sample.bob Sample.oneTask)
     = Some Forbidden
  /\ thrown (TasksService.update Sample.dateParse "0"
               (Sample.statusPatch "DONE") Sample.bob Sample.oneTask)
     = Some Forbidden
  /\ thrown (TasksService.remove "0" Sample.bob Sample.oneTask)
     = Some Forbidden
  /\ (exists pg,
        TasksService.findAll Sample.dateParse Sample.bob None None None None
          Sample.oneTask = Ok (pg, Sample.oneTask)
        /\ page_tasks pg = [] /\ page_total pg = 0%nat)
  /\ (exists pg,
        TasksService.findAll Sample.dateParse Sample.admin None None None None
          Sample.oneTask = Ok (pg, Sample.oneTask)
        /\ page_tasks pg = [Sample.aliceTask] /\ page_total pg = 1%nat).
Proof.
  assert (Hfind : find (TaskRepo.hasId "0") (tasks Sample.oneTask)
                  = Some Sample.aliceTask) by reflexivity.
  assert (Ha : entitled Sample.alice Sample.aliceTask) by (right; reflexivity).
  assert (Hadm : entitled Sample.admin Sample.aliceTask) by (left; reflexivity).
  assert (Hb : ~ entitled Sample.bob Sample.aliceTask).
  { intros [H|H]; discriminate H. }
  pose proof (proj1 (task_access_control Sample.dateParse Sample.oneTask
                       Sample.alice) "0" Sample.aliceTask Hfind) as [A _].
  pose proof (proj1 (task_access_control Sample.dateParse Sample.oneTask
                       Sample.admin) "0" Sample.aliceTask Hfind) as [B _].
  pose proof (proj1 (task_access_control Sample.dateParse Sample.oneTask
                       Sample.bob) "0" Sample.aliceTask Hfind) as [_ C].
  destruct (A Ha) as [A1 _]. destruct (B Hadm) as [B1 _].
  destruct (C Hb) as [C1 [C2 C3]].
  split; [exact A1|]. split; [exact B1|]. split; [exact C1|].
  split; [exact (C2 _)|]. split; [exact C3|]. split.
  - destruct (proj2 (task_access_control Sample.dateParse Sample.oneTask
                       Sample.bob) None None None None) as [L R].
    destruct (R ltac:(cbn; lia) ltac:(cbn; lia) ltac:(discriminate)
                ltac:(discriminate)) as [pg E].
    destruct (L pg _ E) as [_ [N _]].
    destruct (N ltac:(discriminate)) as [T [P _]].
    exists pg. split; [exact E|]. split; [exact P|exact T].
  - destruct (proj2 (task_access_control Sample.dateParse Sample.oneTask
                       Sample.admin) None None None None) as [L R].
    destruct (R ltac:(cbn; lia) ltac:(cbn; lia) ltac:(discriminate)
                ltac:(discriminate)) as [pg E].
    destruct (L pg _ E) as [_ [_ N]].
    destruct (N eq_refl) as [T P].
    exists pg. split; [exact E|]. split; [exact P|exact T].
Defined.

(** ** Validation of task writes and the order of the checks *)

Lemma includes_In (xs : list string) (x : string) :
  Js.includes xs x = true <-> In x xs.
Proof.
  induction xs as [|y ys IH]; simpl.
  - split; [discriminate|tauto].
  - rewrite orb_true_iff, IH, String.eqb_eq. tauto.
Qed.

Lemma invalidStatus_true (s : string) :
  s <> "" -> ~ In s TaskStatus.values ->
  TasksService.invalidStatus (Some s) = true.
Proof.
  intros Hne Hnot. unfold TasksService.invalidStatus. simpl.
  apply andb_true_iff. split.
  - apply negb_true_iff. now apply String.eqb_neq.
  - apply negb_true_iff. destruct (Js.includes TaskStatus.values s) eqn:E; auto.
    apply includes_In in E. contradiction.
Qed.

Lemma invalidDate_true (dateParse : string -> option Z) (d : Js.DateValue) :
  d <> Js.DateStr "" -> TasksService.getTime dateParse d = None ->
  TasksService.invalidDate dateParse (Some d) = true.
Proof.
  intros Hne Hnan. unfold TasksService.invalidDate. rewrite Hnan.
  rewrite andb_true_r. destruct d as [s|t]; simpl; auto.
  apply negb_true_iff, String.eqb_neq. congruence.
Qed.

(** The sample table is what one call of [create] builds. *)
Example create_sample :
  TasksService.create Sample.dateParse (Sample.dto "Test Task") Sample.alice
    Sample.noTasks
  = Ok (Sample.aliceTask, Sample.oneTask).
Proof. reflexivity. Qed.

(** C10. Order of the checks in [update]: a missing task gives NotFound and
    a task the acting user may not act on gives Forbidden, whatever the
    patch holds; a BadRequest can only come out for a task that exists and
    that the acting user is entitled to act on. *)
Theorem update_error_precedence
    (dateParse : string -> option Z) (repo : TaskRepository)
    (id : string) (patch : PartialTask) (u : User) :
  (find (TaskRepo.hasId id) (tasks repo) = None ->
     thrown (TasksService.update dateParse id patch u repo) = Some NotFound)
  /\ (forall t,
        find (TaskRepo.hasId id) (tasks repo) = Some t -> ~ entitled u t ->
        thrown (TasksService.update dateParse id patch u repo)
        = Some Forbidden)
  /\ (thrown (TasksService.update dateParse id patch u repo) = Some BadRequest ->
      exists t,
        find (TaskRepo.hasId id) (tasks repo) = Some t /\ entitled u t).
Proof.
  split; [|split].
  - intros H.
    now rewrite (update_throws_findOne _ _ _ _ _ _ (findOne_missing id u repo H)).
  - intros t H He.
    now rewrite (update_throws_findOne _ _ _ _ _ _
                   (findOne_forbidden id u repo t H He)).
  - intros H. destruct (find (TaskRepo.hasId id) (tasks repo)) as [t|] eqn:F.
    + exists t. split; auto. destruct (entitled_dec u t) as [He|He]; auto.
      rewrite (update_throws_findOne _ _ _ _ _ _
                 (findOne_forbidden id u repo t F He)) in H.
      discriminate.
    + rewrite (update_throws_findOne _ _ _ _ _ _
                 (findOne_missing id u repo F)) in H.
      discriminate.
Qed.

Lemma update_error_precedence_witness :
  thrown (TasksService.update Sample.dateParse "42"
            (Sample.statusPatch "BOGUS") Sample.alice Sample.oneTask)
  = Some NotFound
  /\ thrown (TasksService.update Sample.dateParse "0"
               (Sample.statusPatch "BOGUS") Sample.bob Sample.oneTask)
     = Some Forbidden
  /\ exists t,
       find (TaskRepo.hasId "0") (tasks Sample.oneTask) = Some t
       /\ entitled Sample.alice t.
Proof.
  split; [|split].
  - apply (proj1 (update_error_precedence Sample.dateParse Sample.oneTask
                    "42" (Sample.statusPatch "BOGUS") Sample.alice)).
    reflexivity.
  - apply (proj1 (proj2 (update_error_precedence Sample.dateParse
                           Sample.oneTask "0" (Sample.statusPatch "BOGUS")
                           Sample.bob)) Sample.aliceTask).
    + reflexivity.
    + intros [H|H]; discriminate H.
  - apply (proj2 (proj2 (update_error_precedence Sample.dateParse
                           Sample.oneTask "0" (Sample.statusPatch "BOGUS")
                           Sample.alice))).
    reflexivity.
Defined.

(** C7, as the code has it.  [create] fails with BadRequest when the title
    is absent or empty, and when the input holds a non-empty status outside
    the enum or a due date, other than the empty string, that does not
    parse.  [update] fails with BadRequest on such a status or due date
    when the task exists and the acting user is entitled to act on it. *)
Theorem task_write_validation (dateParse : string -> option Z) :
  (forall dto u repo,
      dto_title dto = None \/ dto_title dto = Some "" ->
      TasksService.create dateParse dto u repo
      = Throw (BadRequestException "Title is required"))
  /\ (forall dto u repo s,
        dto_status dto = Some s -> s <> "" -> ~ In s TaskStatus.values ->
        thrown (TasksService.create dateParse dto u repo) = Some BadRequest)
  /\ (forall dto u repo d,
        dto_dueDate dto = Some d -> d <> Js.DateStr "" ->
        TasksService.getTime dateParse d = None ->
        thrown (TasksService.create dateParse dto u repo) = Some BadRequest)
  /\ (forall id patch u repo t,
        find (TaskRepo.hasId id) (tasks repo) = Some t -> entitled u t ->
        (forall s,
            pt_status patch = Some s -> s <> "" -> ~ In s TaskStatus.values ->
            TasksService.update dateParse id patch u repo
            = Throw (BadRequestException "Invalid task status"))
        /\ (forall d,
              pt_dueDate patch = Some d -> d <> Js.DateStr "" ->
              TasksService.getTime dateParse d = None ->
              thrown (TasksService.update dateParse id patch u repo)
              = Some BadRequest)).
Proof.
  repeat split.
  - intros dto u repo H. unfold TasksService.create.
    destruct H as [H|H]; rewrite H; reflexivity.
  - intros dto u repo s Hs Hne Hnot. unfold TasksService.create.
    destruct (negb (Js.truthy (dto_title dto))); [reflexivity|].
    rewrite Hs, (invalidStatus_true s Hne Hnot). reflexivity.
  - intros dto u repo d Hd Hne Hnan. unfold TasksService.create.
    destruct (negb (Js.truthy (dto_title dto))); [reflexivity|].
    destruct (TasksService.invalidStatus (dto_status dto)); [reflexivity|].
    rewrite Hd, (invalidDate_true dateParse d Hne Hnan). reflexivity.
  - intros s Hs Hne Hnot.
    rewrite (update_after_findOne dateParse _ _ _ _ _
               (findOne_entitled id u repo t H H0)).
    now rewrite Hs, (invalidStatus_true s Hne Hnot).
  - intros d Hd Hne Hnan.
    rewrite (update_after_findOne dateParse _ _ _ _ _
               (findOne_entitled id u repo t H H0)).
    destruct (TasksService.invalidStatus (pt_status patch)); [reflexivity|].
    now rewrite Hd, (invalidDate_true dateParse d Hne Hnan).
Qed.

Lemma task_write_validation_witness :
  TasksService.create Sample.dateParse
    {| dto_title := Some ""; dto_description := None;
       dto_status := None; dto_dueDate := None |}
    Sample.alice Sample.noTasks
  = Throw (BadRequestException "Title is required")
  /\ thrown (TasksService.create Sample.dateParse
               {| dto_title := Some "Test Task"; dto_description := None;
                  dto_status := Some "INVALID_STATUS"; dto_dueDate := None |}
               Sample.alice Sample.noTasks)
     = Some BadRequest
  /\ thrown (TasksService.create Sample.dateParse
               {| dto_title := Some "Test Task"; dto_description := None;
                  dto_status := None;
                  dto_dueDate := Some (Js.DateStr "invalid-date") |}
               Sample.alice Sample.noTasks)
     = Some BadRequest
  /\ TasksService.update Sample.dateParse "0"
       (Sample.statusPatch "INVALID_STATUS") Sample.alice Sample.oneTask
     = Throw (BadRequestException "Invalid task status").
Proof.
  destruct (task_write_validation Sample.dateParse) as [A [B [C D]]].
  split; [|split; [|split]].
  - apply A. now right.
  - apply B with (s := "INVALID_STATUS"); [reflexivity|discriminate|].
    simpl. intros [H|[H|[H|[]]]]; discriminate H.
  - apply C with (d := Js.DateStr "invalid-date");
      [reflexivity|discriminate|reflexivity].
  - destruct (D "0" (Sample.statusPatch "INVALID_STATUS") Sample.alice
                Sample.oneTask Sample.aliceTask) as [D1 _].
    + reflexivity.
    + right. reflexivity.
    + apply D1 with (s := "INVALID_STATUS"); [reflexivity|discriminate|].
      simpl. intros [H|[H|[H|[]]]]; discriminate H.
Defined.

(** C7 as stated does not hold: [update] with a status outside the enum
    fails with NotFound, not BadRequest, when no task has the given key. *)
Lemma task_write_validation_counterexample :
  pt_status (Sample.statusPatch "BOGUS") = Some "BOGUS"
  /\ ~ In "BOGUS" TaskStatus.values
  /\ thrown (TasksService.update Sample.dateParse "42"
               (Sample.statusPatch "BOGUS") Sample.alice Sample.oneTask)
     = Some NotFound
  /\ thrown (TasksService.update Sample.dateParse "42"
               (Sample.statusPatch "BOGUS") Sample.alice Sample.oneTask)
     <> Some BadRequest.
Proof.
  split; [reflexivity|]. split.
  - simpl. intros [H|[H|[H|[]]]]; discriminate H.
  - split; [reflexivity|discriminate].
Qed.

(** ** Partial update *)

Section Save.

Import TaskRepo.

Lemma hasId_eq (i : string) (t : Task) : hasId i t = true <-> task_id t = i.
Proof. unfold hasId. apply String.eqb_eq. Qed.

Lemma hasId_self (t : Task) : hasId (task_id t) t = true.
Proof. now apply hasId_eq. Qed.

Lemma hasId_other (i : string) (t : Task) :
  i <> task_id t -> hasId i t = false.
Proof.
  intros Hne. destruct (hasId i t) eqn:E; [|reflexivity].
  apply hasId_eq in E. congruence.
Qed.

Lemma find_snoc (p : Task -> bool) (rows : list Task) (t : Task) :
  find p (rows ++ [t])
  = match find p rows with
    | Some r => Some r
    | None => if p t then Some t else None
    end.
Proof.
  induction rows as [|r rows IH]; simpl; auto.
  destruct (p r); auto.
Qed.

Lemma find_filter_none (i : string) (rows : list Task) :
  find (hasId i) (filter (fun r => negb (hasId i r)) rows) = None.
Proof.
  induction rows as [|r rows IH]; simpl; auto.
  destruct (hasId i r) eqn:E; simpl; [|rewrite E]; auto.
Qed.

Lemma find_filter_other (i j : string) (rows : list Task) :
  i <> j ->
  find (hasId i) (filter (fun r => negb (hasId j r)) rows)
  = find (hasId i) rows.
Proof.
  intros Hne. induction rows as [|r rows IH]; simpl; auto.
  destruct (hasId j r) eqn:Ej; simpl.
  - apply hasId_eq in Ej. rewrite hasId_other by congruence. exact IH.
  - destruct (hasId i r); auto.
Qed.

(** The row written by [save] is the row found under its key. *)
Lemma find_saved (i : string) (s : Task) (rows : list Task) :
  task_id s = i ->
  find (hasId i) (filter (fun r => negb (hasId i r)) rows ++ [s]) = Some s.
Proof.
  intros <-. now rewrite find_snoc, find_filter_none, hasId_self.
Qed.

(** The rows under other keys are found as before. *)
Lemma find_other_saved (i j : string) (s : Task) (rows : list Task) :
  task_id s = j -> i <> j ->
  find (hasId i) (filter (fun r => negb (hasId j r)) rows ++ [s])
  = find (hasId i) rows.
Proof.
  intros <- Hne. rewrite find_snoc, find_filter_other by exact Hne.
  destruct (find (hasId i) rows); [reflexivity|].
  now rewrite hasId_other.
Qed.

Lemma filter_saved (i : string) (s : Task) (rows : list Task) :
  task_id s = i ->
  filter (fun r => negb (hasId i r))
    (filter (fun r => negb (hasId i r)) rows ++ [s])
  = filter (fun r => negb (hasId i r)) rows.
Proof.
  intros <-. rewrite filter_app. cbn [filter]. rewrite hasId_self. cbn [negb].
  rewrite app_nil_r. induction rows as [|r rows IH]; simpl; auto.
  destruct (hasId (task_id s) r) eqn:E; simpl; [|rewrite E; simpl; f_equal];
    auto.
Qed.

Lemma withUserId_same (t : Task) (k : string) :
  k = task_userId t -> withUserId t k = t.
Proof. intros ->. now destruct t. Qed.

(** What [save] leaves in the table, and what it returns: the entity as it
    was given, or the entity with its join column rewritten, which is what
    the table then holds. *)
Lemma save_cases (t t' : Task) (repo repo' : TaskRepository) :
  save t repo = Ok (t', repo') ->
  exists k,
    tasks repo'
    = filter (fun r => negb (hasId (task_id t) r)) (tasks repo)
      ++ [withUserId t k]
    /\ nextTaskId repo' = nextTaskId repo
    /\ (t' = t \/ t' = withUserId t k)
    /\ (joined repo -> k = user_id (task_user t)).
Proof.
  unfold save.
  destruct (find (hasId (task_id t)) (tasks repo)) as [row|] eqn:F.
  - destruct (user_id (task_user t) =? user_id (task_user row)) eqn:E;
      intros H; inversion H; subst; clear H; cbn [tasks nextTaskId].
    + exists (task_userId row). repeat split; auto.
      intros J. apply String.eqb_eq in E. rewrite E.
      apply J. now apply (find_some _ _ F).
    + exists (user_id (task_user t)). repeat split; auto.
  - intros H; inversion H; subst; clear H; cbn [tasks nextTaskId].
    exists (user_id (task_user t)). repeat split; auto.
Qed.

(** The rows after [save] are rows from before under other keys, or the
    saved entity with some join column. *)
Lemma save_rows (t : Task) (repo repo' : TaskRepository) (t' r : Task) :
  save t repo = Ok (t', repo') ->
  In r (tasks repo') ->
  (exists k, r = withUserId t k)
  \/ (In r (tasks repo) /\ task_id r <> task_id t).
Proof.
  intros H Hin. destruct (save_cases _ _ _ _ H) as [k [Hr _]].
  rewrite Hr in Hin. apply in_app_or in Hin.
  destruct Hin as [Hin|[Hin|[]]]; [right|left; eauto].
  apply filter_In in Hin. destruct Hin as [Hin Hne]. split; [exact Hin|].
  intros K. apply hasId_eq in K. rewrite K in Hne. discriminate.
Qed.

(** Saving an entity whose relation and join column are those of the row
    under its key returns the entity and stores it as it is. *)
Lemma save_loaded (t row : Task) (repo : TaskRepository) :
  find (hasId (task_id t)) (tasks repo) = Some row ->
  user_id (task_user t) = user_id (task_user row) ->
  task_userId t = task_userId row ->
  save t repo
  = Ok (t, {| tasks := filter (fun r => negb (hasId (task_id t) r))
                         (tasks repo) ++ [t];
              nextTaskId := nextTaskId repo |}).
Proof.
  intros F Hu Hk. unfold save. rewrite F, Hu, String.eqb_refl.
  now rewrite withUserId_same.
Qed.

(** On a table whose join column agrees with the relation, so does saving
    an entity whose join column agrees with its relation. *)
Lemma save_joined (t : Task) (repo : TaskRepository) :
  joined repo ->
  task_userId t = user_id (task_user t) ->
  save t repo
  = Ok (t, {| tasks := filter (fun r => negb (hasId (task_id t) r))
                         (tasks repo) ++ [t];
              nextTaskId := nextTaskId repo |}).
Proof.
  intros J Hk. destruct (save_total t repo) as [t' [repo' E]].
  destruct (save_cases _ _ _ _ E) as [k (Hr & Hn & Ht & Hj)].
  rewrite (withUserId_same t k) in Hr, Ht by (rewrite Hk; auto).
  rewrite E. destruct repo' as [rows next]. cbn [tasks nextTaskId] in Hr, Hn.
  subst rows next. destruct Ht as [->| ->]; reflexivity.
Qed.

End Save.

(** An update that succeeds found its task and saved the patched task. *)
Lemma update_ok (dateParse : string -> option Z) (id : string)
    (patch : PartialTask) (u : User) (repo repo' : TaskRepository)
    (t' : Task) :
  TasksService.update dateParse id patch u repo = Ok (t', repo') ->
  exists t,
    find (TaskRepo.hasId id) (tasks repo) = Some t
    /\ entitled u t
    /\ TaskRepo.save (assign t patch) repo = Ok (t', repo').
Proof.
  intros H. destruct (find (TaskRepo.hasId id) (tasks repo)) as [t|] eqn:F.
  - exists t. destruct (entitled_dec u t) as [He|He].
    + rewrite (update_after_findOne dateParse _ _ _ _ _
                 (findOne_entitled id u repo t F He)) in H.
      destruct (TasksService.invalidStatus (pt_status patch)); [discriminate|].
      destruct (TasksService.invalidDate dateParse (pt_dueDate patch));
        [discriminate|].
      repeat split; auto.
    + rewrite (update_throws_findOne _ _ _ _ _ _
                 (findOne_forbidden id u repo t F He)) in H.
      discriminate.
  - rewrite (update_throws_findOne _ _ _ _ _ _
               (findOne_missing id u repo F)) in H.
    discriminate.
Qed.

(** An update whose patch names neither the key nor the owner returns the
    patched task and stores it, last in the table, in place of the row it
    found. *)
Lemma update_kept (dateParse : string -> option Z) (id : string)
    (patch : PartialTask) (u : User) (repo repo' : TaskRepository)
    (t' : Task) :
  dtoShaped patch ->
  TasksService.update dateParse id patch u repo = Ok (t', repo') ->
  exists t,
    find (TaskRepo.hasId id) (tasks repo) = Some t
    /\ entitled u t
    /\ t' = assign t patch
    /\ task_id t' = id
    /\ tasks repo'
       = filter (fun r => negb (TaskRepo.hasId id r)) (tasks repo) ++ [t']
    /\ nextTaskId repo' = nextTaskId repo.
Proof.
  intros (Hid & Huser & Huid) H.
  destruct (update_ok _ _ _ _ _ _ _ H) as [t [F [He S]]].
  pose proof (find_some _ _ F) as [_ Hkey]. apply hasId_eq in Hkey.
  assert (Hsame : task_id (assign t patch) = id)
    by (unfold assign; cbn [task_id]; now rewrite Hid).
  rewrite (save_loaded (assign t patch) t repo) in S.
  - rewrite Hsame in S. inversion S; subst t' repo'. clear S.
    exists t. cbn [tasks nextTaskId]. repeat split; auto.
  - now rewrite Hsame.
  - unfold assign. cbn [task_user]. now rewrite Huser.
  - unfold assign. cbn [task_userId]. now rewrite Huid.
Qed.

(** C8, as the code has it.  On a table whose join column agrees with the
    relation, when [update] succeeds with a patch that names neither the
    [user] of the task nor its [userId], the task it returns is the stored
    task with each property present in the patch set to the patch's value
    and every other property as it was; that task is what the table then
    holds under its key, and the rows under other keys are as they were. *)
Theorem update_partial_frame
    (dateParse : string -> option Z) (id : string) (patch : PartialTask)
    (u : User) (repo repo' : TaskRepository) (t' : Task) :
  joined repo ->
  namesNoOwner patch ->
  TasksService.update dateParse id patch u repo = Ok (t', repo') ->
  exists t,
    find (TaskRepo.hasId id) (tasks repo) = Some t
    /\ task_id t' = match pt_id patch with Some v => v | None => task_id t end
    /\ task_title t'
       = match pt_title patch with Some v => v | None => task_title t end
    /\ task_description t'
       = match pt_description patch with
         | Some v => Some v
         | None => task_description t
         end
    /\ task_status t'
       = match pt_status patch with Some v => v | None => task_status t end
    /\ task_dueDate t'
       = match pt_dueDate patch with
         | Some v => Some v
         | None => task_dueDate t
         end
    /\ task_user t' = task_user t
    /\ task_userId t' = task_userId t
    /\ find (TaskRepo.hasId (task_id t')) (tasks repo') = Some t'
    /\ (forall i, i <> task_id t' ->
          find (TaskRepo.hasId i) (tasks repo')
          = find (TaskRepo.hasId i) (tasks repo)).
Proof.
  intros J (Huser & Huid) H.
  destruct (update_ok _ _ _ _ _ _ _ H) as [t [F [_ S]]].
  pose proof (find_some _ _ F) as [Hin _].
  rewrite (save_joined (assign t patch) repo J) in S.
  - inversion S; subst t' repo'. clear S. exists t. split; [exact F|].
    cbn [tasks]. unfold assign at 1 2 3 4 5 6 7. cbn.
    rewrite Huser, Huid. repeat split; auto.
    + now apply find_saved.
    + intros i Hi. now apply find_other_saved.
  - unfold assign. cbn [task_user task_userId]. rewrite Huser, Huid.
    now apply J.
Qed.

Lemma update_partial_frame_witness :
  joined Sample.oneTask
  /\ namesNoOwner (Sample.statusPatch "DONE")
  /\ TasksService.update Sample.dateParse "0" (Sample.statusPatch "DONE")
       Sample.alice Sample.oneTask
     = Ok (assign Sample.aliceTask (Sample.statusPatch "DONE"),
           {| tasks := [assign Sample.aliceTask (Sample.statusPatch "DONE")];
              nextTaskId := 1 |})
  /\ exists t,
       find (TaskRepo.hasId "0") (tasks Sample.oneTask) = Some t
       /\ task_title (assign Sample.aliceTask (Sample.statusPatch "DONE"))
          = task_title t
       /\ task_status (assign Sample.aliceTask (Sample.statusPatch "DONE"))
          = "DONE"
       /\ task_userId (assign Sample.aliceTask (Sample.statusPatch "DONE"))
          = task_userId t.
Proof.
  assert (J : joined Sample.oneTask).
  { intros t [<-|[]]. reflexivity. }
  assert (N : namesNoOwner (Sample.statusPatch "DONE")) by (split; reflexivity).
  split; [exact J|]. split; [exact N|]. split; [reflexivity|].
  destruct (update_partial_frame Sample.dateParse "0"
              (Sample.statusPatch "DONE") Sample.alice Sample.oneTask
              {| tasks := [assign Sample.aliceTask (Sample.statusPatch "DONE")];
                 nextTaskId := 1 |}
              (assign Sample.aliceTask (Sample.statusPatch "DONE"))
              J N eq_refl)
    as [t [F [_ [B [_ [D [_ [_ [G _]]]]]]]]].
  exists t. repeat split; assumption.
Defined.

(** C8 as stated does not hold of every patch.  A patch that sets [user]
    and nothing else changes the [userId] of the task returned and stored,
    a property the patch does not have; and a patch that sets [userId] and
    nothing else is returned with that value while the row stored keeps the
    key of its owner, so that what is stored is not what is returned. *)
Lemma update_partial_frame_counterexample :
  (exists t' repo',
      TasksService.update Sample.dateParse "0" (Sample.ownerPatch Sample.bob)
        Sample.alice Sample.oneTask
      = Ok (t', repo')
      /\ find (TaskRepo.hasId "0") (tasks Sample.oneTask)
         = Some Sample.aliceTask
      /\ pt_userId (Sample.ownerPatch Sample.bob) = None
      /\ task_userId Sample.aliceTask = "0"
      /\ task_userId t' = "1"
      /\ find (TaskRepo.hasId "0") (tasks repo') = Some t')
  /\ (exists t' repo' s,
        TasksService.update Sample.dateParse "0" (Sample.userIdPatch "1")
          Sample.alice Sample.oneTask
        = Ok (t', repo')
        /\ find (TaskRepo.hasId "0") (tasks repo') = Some s
        /\ task_userId t' = "1"
        /\ task_userId s = "0"
        /\ s <> t').
Proof.
  split.
  - eexists. eexists. split; [reflexivity|]. repeat split; reflexivity.
  - eexists. eexists. eexists. split; [reflexivity|].
    split; [reflexivity|]. split; [reflexivity|]. split; [reflexivity|].
    discriminate.
Qed.

(** ** Ownership *)

Lemma genId_inj (n m : nat) : genId n = genId m -> n = m.
Proof.
  unfold genId. intros H. apply Unsigned.to_uint_inj.
  assert (K : Some (Nat.to_uint n) = Some (Nat.to_uint m)).
  { rewrite <- !NilEmpty.usu. now rewrite H. }
  now inversion K.
Qed.

Lemma create_ok (dateParse : string -> option Z) (dto : CreateTaskDto)
    (user : User) (repo repo' : TaskRepository) (t : Task) :
  TasksService.create dateParse dto user repo = Ok (t, repo') ->
  TaskRepo.insert dto user repo = Ok (t, repo').
Proof.
  unfold TasksService.create.
  destruct (negb (Js.truthy (dto_title dto))); [discriminate|].
  destruct (TasksService.invalidStatus (dto_status dto)); [discriminate|].
  destruct (TasksService.invalidDate dateParse (dto_dueDate dto));
    [discriminate|auto].
Qed.

Lemma remove_ok (id : string) (u : User) (repo repo' : TaskRepository) :
  TasksService.remove id u repo = Ok (tt, repo') ->
  exists t,
    find (TaskRepo.hasId id) (tasks repo) = Some t
    /\ entitled u t
    /\ TaskRepo.remove t repo = Ok (tt, repo').
Proof.
  intros H. destruct (find (TaskRepo.hasId id) (tasks repo)) as [t|] eqn:F.
  - exists t. destruct (entitled_dec u t) as [He|He].
    + rewrite (remove_after_findOne _ _ _ _
                 (findOne_entitled id u repo t F He)) in H. auto.
    + rewrite (remove_throws_findOne _ _ _ _
                 (findOne_forbidden id u repo t F He)) in H.
      discriminate.
  - rewrite (remove_throws_findOne _ _ _ _ (findOne_missing id u repo F)) in H.
    discriminate.
Qed.

(** Calls whose patches have the DTO shape keep the keys issued by the
    counter and the join column in step with the owner; both hold of the
    empty table, and so of every table such calls build. *)
Lemma keysIssued_joined_runCall (dateParse : string -> option Z)
    (c : TaskCall) (repo : TaskRepository) :
  callDtoShaped c ->
  keysIssued repo /\ joined repo ->
  keysIssued (runCall dateParse c repo) /\ joined (runCall dateParse c repo).
Proof.
  intros Hc (Hk & Hj). destruct c as [dto user|id patch user|id user]; simpl.
  - destruct (TasksService.create dateParse dto user repo) as [[t repo']|e]
      eqn:E; [|split; auto].
    apply create_ok in E. unfold TaskRepo.insert in E.
    inversion E; subst; clear E. unfold keysIssued, joined.
    cbn [tasks nextTaskId]. split.
    + intros t Hin. apply in_app_or in Hin. destruct Hin as [Hin|[Hin|[]]].
      * destruct (Hk t Hin) as [m [Hm Hid]]. exists m. split; [lia|auto].
      * subst t. exists (nextTaskId repo). split; [lia|reflexivity].
    + intros t Hin. apply in_app_or in Hin.
      destruct Hin as [Hin|[Hin|[]]]; [now apply Hj|].
      subst t. reflexivity.
  - destruct (TasksService.update dateParse id patch user repo)
      as [[t' repo']|e] eqn:E; [|split; auto].
    destruct (update_kept _ _ _ _ _ _ _ Hc E)
      as [t0 (F & _ & Ht & Hid' & Hrows & Hnext)].
    destruct Hc as (Hid & Huser & Huid).
    pose proof (find_some _ _ F) as [Hin0 Hkey]. apply hasId_eq in Hkey.
    unfold keysIssued, joined. rewrite Hnext, Hrows. split.
    + intros t Hin. apply in_app_or in Hin.
      destruct Hin as [Hin|[Hin|[]]].
      * apply filter_In in Hin. now apply Hk.
      * subst t. rewrite Hid', <- Hkey. now apply Hk.
    + intros t Hin. apply in_app_or in Hin.
      destruct Hin as [Hin|[Hin|[]]].
      * apply filter_In in Hin. now apply Hj.
      * subst t t'. unfold assign. cbn [task_userId task_user].
        rewrite Huser, Huid. now apply Hj.
  - destruct (TasksService.remove id user repo) as [[[] repo']|e] eqn:E;
      [|split; auto].
    destruct (remove_ok _ _ _ _ E) as [t0 [_ [_ R]]].
    unfold TaskRepo.remove, modify in R. inversion R; subst; clear R.
    unfold keysIssued, joined. cbn [tasks nextTaskId]. split.
    + intros t Hin. apply filter_In in Hin. now apply Hk.
    + intros t Hin. apply filter_In in Hin. now apply Hj.
Qed.

Lemma keysIssued_joined_runCalls (dateParse : string -> option Z)
    (cs : list TaskCall) :
  Forall callDtoShaped cs ->
  keysIssued (runCalls dateParse cs Sample.noTasks)
  /\ joined (runCalls dateParse cs Sample.noTasks).
Proof.
  intros Hcs.
  assert (G : forall repo, keysIssued repo /\ joined repo ->
                keysIssued (runCalls dateParse cs repo)
                /\ joined (runCalls dateParse cs repo)).
  { unfold runCalls. induction Hcs as [|c cs Hc _ IH]; simpl; auto.
    intros repo Hinv. apply IH. now apply keysIssued_joined_runCall. }
  apply G. split; intros t [].
Qed.

(** A call whose patch names neither the key nor the [user] of a task keeps
    the owner of every key; a patch may name the [userId]. *)
Lemma ownedBy_runCall (dateParse : string -> option Z) (n : nat)
    (owner : User) (c : TaskCall) (repo : TaskRepository) :
  callKeepsKeyAndOwner c ->
  ownedBy n owner repo ->
  ownedBy n owner (runCall dateParse c repo).
Proof.
  intros Hc (Hk & Hn & Ho). destruct c as [dto user|id patch user|id user];
    simpl.
  - (* create *)
    destruct (TasksService.create dateParse dto user repo) as [[t repo']|e]
      eqn:E; [|repeat split; auto].
    apply create_ok in E. unfold TaskRepo.insert in E.
    inversion E; subst; clear E. unfold ownedBy, keysIssued.
    cbn [tasks nextTaskId]. repeat split.
    + intros t Hin. apply in_app_or in Hin. destruct Hin as [Hin|[Hin|[]]].
      * destruct (Hk t Hin) as [m [Hm Hid]]. exists m. split; [lia|auto].
      * subst t. exists (nextTaskId repo). split; [lia|reflexivity].
    + lia.
    + intros t Hin Hid. apply in_app_or in Hin.
      destruct Hin as [Hin|[Hin|[]]]; [now apply Ho|].
      subst t. cbn [task_id] in Hid. apply genId_inj in Hid. lia.
  - (* update *)
    destruct (TasksService.update dateParse id patch user repo)
      as [[t' repo']|e] eqn:E; [|repeat split; auto].
    destruct (update_ok _ _ _ _ _ _ _ E) as [t0 [F [_ S]]].
    destruct Hc as (Hid & Huser).
    pose proof (find_some _ _ F) as [Hin0 _].
    assert (Hsame : task_id (assign t0 patch) = task_id t0)
      by (unfold assign; cbn [task_id]; now rewrite Hid).
    assert (Hown : task_user (assign t0 patch) = task_user t0)
      by (unfold assign; cbn [task_user]; now rewrite Huser).
    destruct (save_cases _ _ _ _ S) as [k (_ & Hnext & _)].
    unfold ownedBy, keysIssued. rewrite Hnext. repeat split; auto.
    + intros t Hin.
      destruct (save_rows _ _ _ _ _ S Hin) as [[k' ->]|[Hin' _]]; auto.
      cbn [withUserId task_id]. rewrite Hsame. auto.
    + intros t Hin Hnum.
      destruct (save_rows _ _ _ _ _ S Hin) as [[k' ->]|[Hin' _]]; auto.
      cbn [withUserId task_id task_user] in *. rewrite Hown.
      apply Ho; auto. now rewrite <- Hsame.
  - (* remove *)
    destruct (TasksService.remove id user repo) as [[[] repo']|e] eqn:E;
      [|repeat split; auto].
    destruct (remove_ok _ _ _ _ E) as [t0 [_ [_ R]]].
    unfold TaskRepo.remove, modify in R. inversion R; subst; clear R.
    unfold ownedBy, keysIssued. cbn [tasks nextTaskId]. repeat split; auto.
    + intros t Hin. apply filter_In in Hin. now apply Hk.
    + intros t Hin. apply filter_In in Hin. now apply Ho.
Qed.

Lemma ownedBy_runCalls (dateParse : string -> option Z) (n : nat)
    (owner : User) (cs : list TaskCall) :
  Forall callKeepsKeyAndOwner cs ->
  forall repo, ownedBy n owner repo ->
  ownedBy n owner (runCalls dateParse cs repo).
Proof.
  unfold runCalls. induction 1 as [|c cs Hc _ IH]; simpl; auto.
  intros repo Hinv. apply IH. now apply ownedBy_runCall.
Qed.

(** C9, as the code has it.  A successful [update] whose patch has no [user]
    property returns a task with the owner the task had before, and the row
    the table then holds under the returned key has that owner too.  And
    the owner that [create] sets stays the owner of the task under that key
    through any later calls of [create], [update] and [remove] in which no
    patch names the key or the [user] of a task. *)
Theorem owner_fixed_at_creation (dateParse : string -> option Z) :
  (forall id patch u repo t' repo',
      pt_user patch = None ->
      TasksService.update dateParse id patch u repo = Ok (t', repo') ->
      exists t,
        find (TaskRepo.hasId id) (tasks repo) = Some t
        /\ task_user t' = task_user t
        /\ exists s,
             find (TaskRepo.hasId (task_id t')) (tasks repo') = Some s
             /\ task_user s = task_user t)
  /\ (forall dto user repo t repo1 calls,
        keysIssued repo ->
        TasksService.create dateParse dto user repo = Ok (t, repo1) ->
        Forall callKeepsKeyAndOwner calls ->
        task_user t = user
        /\ In t (tasks repo1)
        /\ forall t', In t' (tasks (runCalls dateParse calls repo1)) ->
                      task_id t' = task_id t -> task_user t' = user).
Proof.
  split.
  - intros id patch u repo t' repo' Hp H.
    destruct (update_ok _ _ _ _ _ _ _ H) as [t [F [_ S]]].
    destruct (save_cases _ _ _ _ S) as [k (Hr & _ & Ht & _)].
    assert (Hown : task_user (assign t patch) = task_user t)
      by (unfold assign; cbn [task_user]; now rewrite Hp).
    assert (Hid : task_id t' = task_id (assign t patch))
      by (destruct Ht as [->| ->]; reflexivity).
    exists t. split; [exact F|]. split.
    + destruct Ht as [->| ->]; exact Hown.
    + exists (withUserId (assign t patch) k). split; [|exact Hown].
      rewrite Hr, Hid. now apply find_saved.
  - intros dto user repo t repo1 calls Hk H Hcalls.
    apply create_ok in H. unfold TaskRepo.insert in H.
    inversion H; subst; clear H. cbn [task_user task_id tasks].
    split; [reflexivity|]. split; [apply in_or_app; right; now left|].
    intros t' Hin Hid.
    match type of Hin with
    | In _ (tasks (runCalls _ _ ?r)) =>
        assert (Hinv : ownedBy (nextTaskId repo) user r)
    end.
    { unfold ownedBy, keysIssued. cbn [tasks nextTaskId]. repeat split.
      - intros t Hin'. apply in_app_or in Hin'.
        destruct Hin' as [Hin'|[Hin'|[]]].
        + destruct (Hk t Hin') as [m [Hm Hm']]. exists m. split; [lia|auto].
        + subst t. exists (nextTaskId repo). split; [lia|reflexivity].
      - lia.
      - intros t Hin' Hid'. apply in_app_or in Hin'.
        destruct Hin' as [Hin'|[Hin'|[]]].
        + destruct (Hk t Hin') as [m [Hm Hm']]. rewrite Hm' in Hid'.
          apply genId_inj in Hid'. lia.
        + now subst t. }
    destruct (ownedBy_runCalls dateParse _ _ calls Hcalls _ Hinv)
      as (_ & _ & Ho).
    now apply Ho.
Qed.

Lemma owner_fixed_at_creation_witness :
  (exists t,
      find (TaskRepo.hasId "0") (tasks Sample.oneTask) = Some t
      /\ task_user (assign Sample.aliceTask (Sample.userIdPatch "1"))
         = task_user t
      /\ exists s,
           find (TaskRepo.hasId "0")
             [withUserId (assign Sample.aliceTask (Sample.userIdPatch "1"))
                "0"]
           = Some s
           /\ task_user s = task_user t)
  /\ Forall (fun t' => task_id t' = "0" -> task_user t' = Sample.alice)
       (tasks (runCalls Sample.dateParse
                 [CallUpdate "0" (Sample.userIdPatch "1") Sample.admin;
                  CallCreate (Sample.dto "Other") Sample.bob;
                  CallRemove "1" Sample.bob]
                 Sample.oneTask)).
Proof.
  destruct (owner_fixed_at_creation Sample.dateParse) as [A B]. split.
  - exact (A "0" (Sample.userIdPatch "1") Sample.alice Sample.oneTask
             (assign Sample.aliceTask (Sample.userIdPatch "1"))
             {| tasks := [withUserId
                            (assign Sample.aliceTask (Sample.userIdPatch "1"))
                            "0"];
                nextTaskId := 1 |} eq_refl eq_refl).
  - assert (K : keysIssued Sample.noTasks) by (intros t []).
    assert (C : Forall callKeepsKeyAndOwner
                  [CallUpdate "0" (Sample.userIdPatch "1") Sample.admin;
                   CallCreate (Sample.dto "Other") Sample.bob;
                   CallRemove "1" Sample.bob]).
    { repeat constructor. }
    destruct (B (Sample.dto "Test Task") Sample.alice Sample.noTasks
                Sample.aliceTask Sample.oneTask _ K eq_refl C) as [_ [_ O]].
    apply Forall_forall. exact O.
Defined.

(** C9 as stated does not hold: the patch type of [update] has a [user]
    property, and a patch that sets it is accepted and changes the owner. *)
Lemma owner_fixed_at_creation_counterexample :
  exists t' repo',
    find (TaskRepo.hasId "0") (tasks Sample.oneTask) = Some Sample.aliceTask
    /\ TasksService.update Sample.dateParse "0" (Sample.ownerPatch Sample.bob)
         Sample.alice Sample.oneTask
       = Ok (t', repo')
    /\ find (TaskRepo.hasId "0") (tasks repo') = Some t'
    /\ task_user Sample.aliceTask = Sample.alice
    /\ task_user t' = Sample.bob
    /\ task_user t' <> task_user Sample.aliceTask.
Proof.
  eexists. eexists. split; [reflexivity|]. split; [reflexivity|].
  split; [reflexivity|]. split; [reflexivity|]. split; [reflexivity|].
  discriminate.
Qed.

(** ** Pagination *)




(** The pages of fifteen tasks, ten to a page. *)
Example fifteen_tasks_page_1 :
  exists pg repo,
    TasksService.findAll Sample.dateParse Sample.alice None None
      (Some 1%Z) (Some 10%Z) (Sample.created 15 Sample.alice) = Ok (pg, repo)
    /\ length (page_tasks pg) = 10%nat /\ page_total pg = 15%nat.
Proof. eexists. eexists. split; [reflexivity|]. split; reflexivity. Qed.

Example fifteen_tasks_page_99999 :
  exists pg repo,
    TasksService.findAll Sample.dateParse Sample.alice None None
      (Some 99999%Z) (Some 10%Z) (Sample.created 15 Sample.alice)
    = Ok (pg, repo)
    /\ page_tasks pg = [] /\ page_total pg = 15%nat.
Proof. eexists. eexists. split; [reflexivity|]. split; reflexivity. Qed.

(** ** Registration *)

(** The e-mail pattern on a few addresses. *)
Example isValidEmail_accepts :
  map AuthService.isValidEmail
    ["test@example.com"; "admin@example.com"; "a@b.com"; "a.b@c.d.e"]
  = [true; true; true; true].
Proof. vm_compute. reflexivity. Qed.

Example isValidEmail_rejects :
  map AuthService.isValidEmail
    ["bad-email"; "invalid-email"; ""; "@b.com"; "a@b"; "a@b."; "a@.com";
     "a b@c.de"; "a@b@c.de"; "a@b.c d"]
  = [false; false; false; false; false; false; false; false; false; false].
Proof. vm_compute. reflexivity. Qed.

(** The two format checks of [register]. *)
Example register_bad_email :
  AuthService.register Sample.bcrypt "bad-email" "123456" Sample.noUsers
  = Throw (BadRequestException "Invalid email format").
Proof. reflexivity. Qed.

Example register_short_password :
  AuthService.register Sample.bcrypt "a@b.com" "123" Sample.noUsers
  = Throw (BadRequestException "Password must be at least 6 characters long").
Proof. reflexivity. Qed.

Section Registration.

Import AuthService.

Variable bcrypt : Bcrypt.

Lemma find_email_registered (e : string) (repo : UserRepository) :
  registered e repo <->
  exists u, find (fun u => user_email u =? e) (users repo) = Some u.
Proof.
  unfold registered. split.
  - intros [u [Hin He]].
    destruct (find (fun u => user_email u =? e) (users repo)) as [v|] eqn:F.
    + now exists v.
    + apply (find_none _ _ F) in Hin. apply String.eqb_neq in Hin.
      contradiction.
  - intros [u F]. apply find_some in F. destruct F as [Hin He].
    exists u. split; auto. now apply String.eqb_eq.
Qed.

(** What [register] does once the two format checks have passed. *)
Lemma register_checked (e password : string) (repo : UserRepository) :
  isValidEmail e = true ->
  (6 <= String.length password)%nat ->
  register bcrypt e password repo
  = match find (fun u => user_email u =? e) (users repo) with
    | Some _ => Throw (BadRequestException "Email already exists")
    | None =>
        UserRepo.save e (hash bcrypt password 10)
          (if e =? "admin@example.com" then UserRole.ADMIN
           else UserRole.USER) repo
    end.
Proof.
  intros Hv Hl. unfold register. rewrite Hv.
  assert ((String.length password <? 6)%nat = false) as ->
    by (apply Nat.ltb_ge; lia).
  cbn [negb]. unfold UserRepo.findOneByEmail. unfold_monad.
  destruct (find (fun u => user_email u =? e) (users repo)); reflexivity.
Qed.

(** A registration that succeeds passed the checks and saved the row. *)
Lemma register_ok (e password : string) (repo repo' : UserRepository)
    (u : User) :
  register bcrypt e password repo = Ok (u, repo') ->
  isValidEmail e = true
  /\ (6 <= String.length password)%nat
  /\ ~ registered e repo
  /\ u = {| user_id := genId (nextUserId repo);
            user_email := e;
            user_password := hash bcrypt password 10;
            user_role := if e =? "admin@example.com"
                         then UserRole.ADMIN else UserRole.USER |}
  /\ users repo' = users repo ++ [u].
Proof.
  intros H. unfold register in H.
  destruct (isValidEmail e) eqn:Hv; [|discriminate]. simpl in H.
  destruct (String.length password <? 6)%nat eqn:Hl; [discriminate|].
  apply Nat.ltb_ge in Hl.
  unfold UserRepo.findOneByEmail in H. unfold_monad.
  destruct (find (fun u => user_email u =? e) (users repo)) eqn:F;
    [discriminate|].
  unfold UserRepo.save in H. inversion H; subst; clear H.
  cbn [users]. repeat split; auto.
  intros R. apply find_email_registered in R. destruct R as [v R].
  congruence.
Qed.

End Registration.

(** C5. The role given at registration depends on the e-mail address alone:
    a registration that succeeds creates an ADMIN when the address is
    [admin@example.com] and a USER for every other address. *)
Theorem role_assignment
    (bcrypt : Bcrypt) (e password : string) (repo repo' : UserRepository)
    (u : User) :
  AuthService.register bcrypt e password repo = Ok (u, repo') ->
  user_email u = e
  /\ (e = "admin@example.com" -> user_role u = UserRole.ADMIN)
  /\ (e <> "admin@example.com" -> user_role u = UserRole.USER).
Proof.
  intros H. apply register_ok in H. destruct H as (_ & _ & _ & -> & _).
  cbn [user_email user_role]. split; [reflexivity|]. split; intros He.
  - subst e. reflexivity.
  - apply String.eqb_neq in He. now rewrite He.
Qed.

Lemma role_assignment_witness :
  user_role
    {| user_id := "0"; user_email := "admin@example.com";
       user_password := "$2b$10$password123"; user_role := "ADMIN" |}
  = UserRole.ADMIN
  /\ user_role Sample.alice = UserRole.USER.
Proof.
  split.
  - apply (proj1 (proj2 (role_assignment Sample.bcrypt "admin@example.com"
                           "password123" Sample.noUsers
                           {| users :=
                                [{| user_id := "0";
                                    user_email := "admin@example.com";
                                    user_password := "$2b$10$password123";
                                    user_role := "ADMIN" |}];
                              nextUserId := 1 |}
                           _ eq_refl))).
    reflexivity.
  - apply (proj2 (proj2 (role_assignment Sample.bcrypt "test@example.com"
                           "password123" Sample.noUsers Sample.oneUser
                           Sample.alice eq_refl))).
    discriminate.
Defined.

(** C4, as the code has it.  For a well-formed address and a password of six
    characters or more: when the address is already registered, [register]
    fails with the BadRequest exception whose message is "Email already
    exists"; otherwise it succeeds, and registering the same address again
    fails in that way. *)
Theorem duplicate_registration
    (bcrypt : Bcrypt) (e password : string) (repo : UserRepository) :
  AuthService.isValidEmail e = true ->
  (6 <= String.length password)%nat ->
  (registered e repo ->
     AuthService.register bcrypt e password repo
     = Throw (BadRequestException "Email already exists"))
  /\ (~ registered e repo ->
      exists u repo',
        AuthService.register bcrypt e password repo = Ok (u, repo')
        /\ registered e repo'
        /\ forall password',
             (6 <= String.length password')%nat ->
             AuthService.register bcrypt e password' repo'
             = Throw (BadRequestException "Email already exists")).
Proof.
  intros Hv Hl. split.
  - intros R. rewrite (register_checked bcrypt e password repo Hv Hl).
    apply find_email_registered in R. destruct R as [u F]. now rewrite F.
  - intros R.
    destruct (AuthService.register bcrypt e password repo)
      as [[u repo']|ex] eqn:E.
    + exists u, repo'. split; [reflexivity|].
      destruct (register_ok bcrypt _ _ _ _ _ E) as (_ & _ & _ & Hu & Hrows).
      assert (R' : registered e repo').
      { exists u. rewrite Hrows. split; [apply in_or_app; right; now left|].
        subst u. reflexivity. }
      split; [exact R'|]. intros password' Hl'.
      rewrite (register_checked bcrypt e password' repo' Hv Hl').
      apply find_email_registered in R'. destruct R' as [v F]. now rewrite F.
    + exfalso. rewrite (register_checked bcrypt e password repo Hv Hl) in E.
      destruct (find (fun u => user_email u =? e) (users repo)) as [v|] eqn:F.
      * apply R. apply find_email_registered. now exists v.
      * discriminate.
Qed.

Lemma duplicate_registration_witness :
  AuthService.register Sample.bcrypt "test@example.com" "password123"
    Sample.oneUser
  = Throw (BadRequestException "Email already exists")
  /\ exists u repo',
       AuthService.register Sample.bcrypt "test@example.com" "password123"
         Sample.noUsers = Ok (u, repo')
       /\ AuthService.register Sample.bcrypt "test@example.com" "password123"
            repo'
          = Throw (BadRequestException "Email already exists").
Proof.
  split.
  - apply (proj1 (duplicate_registration Sample.bcrypt "test@example.com"
                    "password123" Sample.oneUser eq_refl ltac:(simpl; lia))).
    exists Sample.alice. split; [now left|reflexivity].
  - destruct (proj2 (duplicate_registration Sample.bcrypt "test@example.com"
                       "password123" Sample.noUsers eq_refl
                       ltac:(simpl; lia)))
      as [u [repo' [E [_ D]]]].
    + intros [v [[] _]].
    + exists u, repo'. split; [exact E|]. apply D. simpl. lia.
Defined.

(** C4 as stated does not hold: the failure for an address that is already
    registered has the exception class of the failures for a malformed
    address and for a short password. *)
Lemma duplicate_registration_counterexample :
  registered "test@example.com" Sample.oneUser
  /\ thrown (AuthService.register Sample.bcrypt "test@example.com"
               "password123" Sample.oneUser)
     = Some BadRequest
  /\ thrown (AuthService.register Sample.bcrypt "bad-email" "123456"
               Sample.oneUser)
     = Some BadRequest
  /\ thrown (AuthService.register Sample.bcrypt "a@b.com" "123"
               Sample.oneUser)
     = Some BadRequest.
Proof.
  split.
  - exists Sample.alice. split; [now left|reflexivity].
  - repeat split; reflexivity.
Qed.

(** ** Credentials and tokens *)

(** [validateUser] returns a user only with the [password] property
    removed, and never writes to the user table. *)
Lemma validateUser_strips_password
    (bcrypt : Bcrypt) (e password : string) (repo repo' : UserRepository)
    (r : PartialUser) :
  AuthService.validateUser bcrypt e password repo = Ok (Some r, repo') ->
  p_password r = None
  /\ repo' = repo
  /\ exists u,
       find (fun u => user_email u =? e) (users repo) = Some u
       /\ compare bcrypt password (user_password u) = true
       /\ p_id r = Some (user_id u)
       /\ p_email r = Some (user_email u)
       /\ p_role r = Some (user_role u).
Proof.
  unfold AuthService.validateUser, UserRepo.findOneByEmail. unfold_monad.
  destruct (find (fun u => user_email u =? e) (users repo)) as [u|] eqn:F;
    [|discriminate].
  destruct (compare bcrypt password (user_password u)) eqn:C; simpl;
    [|discriminate].
  intros H. inversion H; subst; clear H. cbn. repeat split; auto.
  exists u. repeat split; auto.
Qed.

(** C2: the first half of the claim fails on the code.  The user that
    [register] returns is the saved entity, password hash included: after
    registering on an empty table, the returned value carries the hash under
    its [password] property, whatever the hash function. *)
Theorem register_returns_password_hash (bcrypt : Bcrypt) :
  exists u repo',
    AuthService.register bcrypt "test@example.com" "password123"
      Sample.noUsers = Ok (u, repo')
    /\ user_password u = hash bcrypt "password123" 10
    /\ p_password (asPartial u) = Some (hash bcrypt "password123" 10).
Proof.
  eexists. eexists. split; [vm_compute; reflexivity|]. split; reflexivity.
Qed.

Lemma missing_truthy (v : option string) :
  Js.truthy v = false <-> missing v.
Proof.
  unfold missing, Js.truthy. destruct v as [s|].
  - destruct (String.eqb_spec s ""); simpl; split; intros H; auto.
    + subst. now right.
    + discriminate.
    + destruct H as [H|H]; [discriminate|]. congruence.
  - split; auto.
Qed.

(** [refreshToken] with the [try]/[catch] resolved: every exception raised
    in the body comes out as the one Unauthorized exception. *)
Lemma refreshToken_cases
    (jwtService refreshJwtService : JwtService) (token : string)
    (repo : UserRepository) :
  AuthService.refreshToken jwtService refreshJwtService token repo
  = match verify refreshJwtService token with
    | None => Throw (UnauthorizedException "Invalid refresh token")
    | Some payload =>
        if negb (Js.truthy (sub payload))
           || negb (Js.truthy (email payload))
           || negb (Js.truthy (role payload))
        then Throw (UnauthorizedException "Invalid refresh token")
        else
          match find (fun u => user_id u =? Js.valueOf (sub payload))
                  (users repo) with
          | None => Throw (UnauthorizedException "Invalid refresh token")
          | Some user =>
              Ok (AuthService.login jwtService refreshJwtService
                    (asPartial user), repo)
          end
    end.
Proof.
  unfold AuthService.refreshToken, UserRepo.findOneById. unfold_monad.
  destruct (verify refreshJwtService token) as [payload|]; [|reflexivity].
  destruct (negb (Js.truthy (sub payload))
            || negb (Js.truthy (email payload))
            || negb (Js.truthy (role payload))); [reflexivity|].
  destruct (find (fun u => user_id u =? Js.valueOf (sub payload))
              (users repo)); reflexivity.
Qed.

(** C3. The exchange of a refresh token.  [refreshToken] fails with
    Unauthorized when the token does not verify, when the decoded payload
    misses its subject, e-mail address or role, and when no user has the
    subject as key; in every other case it returns, without writing to the
    user table, the pair of tokens that [login] issues for the user found
    under that key. *)
Theorem refresh_token_outcome
    (jwtService refreshJwtService : JwtService) (token : string)
    (repo : UserRepository) :
  (verify refreshJwtService token = None ->
     AuthService.refreshToken jwtService refreshJwtService token repo
     = Throw (UnauthorizedException "Invalid refresh token"))
  /\ (forall payload,
        verify refreshJwtService token = Some payload ->
        missing (sub payload) \/ missing (email payload)
        \/ missing (role payload) ->
        AuthService.refreshToken jwtService refreshJwtService token repo
        = Throw (UnauthorizedException "Invalid refresh token"))
  /\ (forall payload,
        verify refreshJwtService token = Some payload ->
        find (fun u => user_id u =? Js.valueOf (sub payload)) (users repo)
        = None ->
        AuthService.refreshToken jwtService refreshJwtService token repo
        = Throw (UnauthorizedException "Invalid refresh token"))
  /\ (forall payload user,
        verify refreshJwtService token = Some payload ->
        ~ missing (sub payload) -> ~ missing (email payload) ->
        ~ missing (role payload) ->
        find (fun u => user_id u =? Js.valueOf (sub payload)) (users repo)
        = Some user ->
        AuthService.refreshToken jwtService refreshJwtService token repo
        = Ok (AuthService.login jwtService refreshJwtService (asPartial user),
              repo)).
Proof.
  rewrite refreshToken_cases. split; [|split; [|split]].
  - intros H. now rewrite H.
  - intros payload H Hm. rewrite H.
    destruct (Js.truthy (sub payload)) eqn:A; simpl; auto.
    destruct (Js.truthy (email payload)) eqn:B; simpl; auto.
    destruct (Js.truthy (role payload)) eqn:C; simpl; auto.
    exfalso. destruct Hm as [Hm|[Hm|Hm]]; apply missing_truthy in Hm;
      congruence.
  - intros payload H F. rewrite H, F.
    destruct (negb (Js.truthy (sub payload))
              || negb (Js.truthy (email payload))
              || negb (Js.truthy (role payload))); reflexivity.
  - intros payload user H A B C F. rewrite H, F.
    destruct (Js.truthy (sub payload)) eqn:A';
      [|apply missing_truthy in A'; contradiction].
    destruct (Js.truthy (email payload)) eqn:B';
      [|apply missing_truthy in B'; contradiction].
    destruct (Js.truthy (role payload)) eqn:C';
      [|apply missing_truthy in C'; contradiction].
    reflexivity.
Qed.

Lemma refresh_token_outcome_witness :
  AuthService.refreshToken (Sample.jwt "access") (Sample.jwt "refresh")
    "garbage" Sample.oneUser
  = Throw (UnauthorizedException "Invalid refresh token")
  /\ AuthService.refreshToken (Sample.jwt "access") (Sample.jwt "refresh")
       "refresh:partial" Sample.oneUser
     = Throw (UnauthorizedException "Invalid refresh token")
  /\ AuthService.refreshToken (Sample.jwt "access") (Sample.jwt "refresh")
       "refresh:gone" Sample.oneUser
     = Throw (UnauthorizedException "Invalid refresh token")
  /\ AuthService.refreshToken (Sample.jwt "access") (Sample.jwt "refresh")
       (refresh_token
          (AuthService.login (Sample.jwt "access") (Sample.jwt "refresh")
             (asPartial Sample.alice)))
       Sample.oneUser
     = Ok ({| access_token := "access:0"; refresh_token := "refresh:0" |},
           Sample.oneUser).
Proof.
  split; [|split; [|split]].
  - apply (proj1 (refresh_token_outcome (Sample.jwt "access")
                    (Sample.jwt "refresh") "garbage" Sample.oneUser)).
    reflexivity.
  - apply (proj1 (proj2 (refresh_token_outcome (Sample.jwt "access")
                           (Sample.jwt "refresh") "refresh:partial"
                           Sample.oneUser))
             {| sub := Some "0"; email := None; role := Some "USER" |}).
    + reflexivity.
    + right. left. now left.
  - apply (proj1 (proj2 (proj2 (refresh_token_outcome (Sample.jwt "access")
                                  (Sample.jwt "refresh") "refresh:gone"
                                  Sample.oneUser)))
             {| sub := Some "7"; email := Some "gone@example.com";
                role := Some "USER" |}).
    + reflexivity.
    + reflexivity.
  - apply (proj2 (proj2 (proj2 (refresh_token_outcome (Sample.jwt "access")
                                  (Sample.jwt "refresh") "refresh:0"
                                  Sample.oneUser)))
             {| sub := Some "0"; email := Some "test@example.com";
                role := Some "USER" |} Sample.alice).
    + reflexivity.
    + intros [H|H]; discriminate H.
    + intros [H|H]; discriminate H.
    + intros [H|H]; discriminate H.
    + reflexivity.
Defined.

(** * Further properties of the services *)

(** ** The e-mail pattern *)

Lemma append_empty (x y : string) : (x ++ y)%string = "" -> x = "" /\ y = "".
Proof. destruct x; simpl; [auto|discriminate]. Qed.

Lemma append_empty_r (x : string) : (x ++ "")%string = x.
Proof. induction x as [|c x IH]; simpl; [reflexivity|now rewrite IH]. Qed.

Lemma append_assoc (x y z : string) :
  ((x ++ y) ++ z)%string = (x ++ (y ++ z))%string.
Proof. induction x as [|c x IH]; simpl; [reflexivity|now rewrite IH]. Qed.

Lemma nullable_matches (r : Js.Regex) :
  Js.nullable r = true <-> Matches r "".
Proof.
  induction r as [| |p|r IHr s IHs|r IHr s IHs|r IHr]; simpl.
  - split; [discriminate|]. intros H. inversion H.
  - split; auto. intros _. constructor.
  - split; [discriminate|]. intros H. inversion H.
  - rewrite andb_true_iff, IHr, IHs. split.
    + intros [Hr Hs]. change "" with ("" ++ "")%string. now constructor.
    + intros H. inversion H as [| |r0 s0 x y Hx Hy E| | | |]; subst.
      match goal with K : (_ ++ _)%string = "" |- _ =>
        apply append_empty in K; destruct K; subst end.
      auto.
  - rewrite orb_true_iff, IHr, IHs. split.
    + intros [H|H]; [now apply MAltL|now apply MAltR].
    + intros H. inversion H; subst; auto.
  - split; auto. intros _. constructor.
Qed.

Lemma deriv_sound (c : ascii) (r : Js.Regex) :
  forall s, Matches (Js.deriv c r) s -> Matches r (String c s).
Proof.
  induction r as [| |p|r IHr t IHt|r IHr t IHt|r IHr]; simpl; intros s H.
  - inversion H.
  - inversion H.
  - destruct (p c) eqn:E; inversion H; subst. now constructor.
  - destruct (Js.nullable r) eqn:N.
    + inversion H as [| | |r0 s0 x Hx|r0 s0 x Hx| |]; subst.
      * inversion Hx as [| |r1 s1 x y Hx1 Hy1| | | |]; subst.
        change (String c (x ++ y)) with (String c x ++ y)%string.
        constructor; auto.
      * change (String c s) with ("" ++ String c s)%string.
        constructor; auto. now apply nullable_matches.
    + inversion H as [| |r1 s1 x y Hx1 Hy1| | | |]; subst.
      change (String c (x ++ y)) with (String c x ++ y)%string.
      constructor; auto.
  - inversion H; subst; [apply MAltL|apply MAltR]; auto.
  - inversion H as [| |r1 s1 x y Hx1 Hy1| | | |]; subst.
    change (String c (x ++ y)) with (String c x ++ y)%string.
    constructor; auto.
Qed.

Lemma deriv_complete (r : Js.Regex) (w : string) :
  Matches r w ->
  forall c s, w = String c s -> Matches (Js.deriv c r) s.
Proof.
  induction 1 as [|p c0 Hp|r t x y Hx IHx Hy IHy|r t x Hx IHx|r t x Hx IHx
                  |r|r x y Hx IHx Hy IHy]; intros c s E; simpl.
  - discriminate.
  - inversion E; subst. rewrite Hp. constructor.
  - destruct x as [|c' x'].
    + simpl in E. subst y.
      assert (N : Js.nullable r = true) by now apply nullable_matches.
      rewrite N. apply MAltR. now apply IHy.
    + simpl in E. inversion E; subst.
      destruct (Js.nullable r).
      * apply MAltL. constructor; auto.
      * constructor; auto.
  - apply MAltL. auto.
  - apply MAltR. auto.
  - discriminate.
  - destruct x as [|c' x'].
    + simpl in E. now apply IHy.
    + simpl in E. inversion E; subst. constructor; auto.
Qed.

(** The matcher decides the language of the expression. *)
Lemma test_matches (s : string) :
  forall r, Js.test r s = true <-> Matches r s.
Proof.
  induction s as [|c s IH]; intros r; simpl.
  - apply nullable_matches.
  - rewrite IH. split.
    + apply deriv_sound.
    + intros H. now apply deriv_complete with (w := String c s).
Qed.

Lemma star_class (p : ascii -> bool) (s : string) :
  Matches (Js.RStar (Js.RClass p)) s <-> allChars p s = true.
Proof.
  split.
  - intros H. remember (Js.RStar (Js.RClass p)) as r eqn:E.
    induction H as [| | | | | |r x y Hx _ Hy IHy]; inversion E; subst.
    + reflexivity.
    + inversion Hx; subst. simpl. rewrite IHy by reflexivity.
      now apply andb_true_iff.
  - induction s as [|c s IH]; simpl; intros H.
    + constructor.
    + apply andb_true_iff in H. destruct H as [Hc Hs].
      change (String c s) with (String c "" ++ s)%string.
      constructor; [now constructor|auto].
Qed.

Lemma plus_class (p : ascii -> bool) (s : string) :
  Matches (Js.RPlus (Js.RClass p)) s <-> s <> "" /\ allChars p s = true.
Proof.
  unfold Js.RPlus. split.
  - intros H. inversion H as [| |r t x y Hx Hy| | | |]; subst.
    inversion Hx; subst. simpl. split; [discriminate|].
    apply andb_true_iff. split; [assumption|now apply star_class].
  - intros [Hne H]. destruct s as [|c s]; [congruence|].
    simpl in H. apply andb_true_iff in H. destruct H as [Hc Hs].
    change (String c s) with (String c "" ++ s)%string.
    constructor; [now constructor|now apply star_class].
Qed.

Lemma chr_matches (a : ascii) (x : string) :
  Matches (Js.chr a) x <-> x = String a "".
Proof.
  unfold Js.chr. split.
  - intros H. inversion H; subst.
    match goal with K : Ascii.eqb _ _ = true |- _ =>
      apply Ascii.eqb_eq in K; now subst end.
  - intros ->. constructor. apply Ascii.eqb_refl.
Qed.

(** The language of the e-mail pattern. *)
Lemma emailRegex_language (e : string) :
  AuthService.isValidEmail e = true
  <-> exists l d t,
        e = (l ++ "@" ++ d ++ "." ++ t)%string
        /\ addressPart l /\ addressPart d /\ addressPart t.
Proof.
  unfold AuthService.isValidEmail, AuthService.emailRegex,
    AuthService.notSpaceAt, addressPart.
  rewrite test_matches. split.
  - intros H.
    inversion H as [| |r1 s1 l y1 Hl H1| | | |]; subst.
    inversion H1 as [| |r2 s2 a y2 Ha H2| | | |]; subst.
    inversion H2 as [| |r3 s3 d y3 Hd H3| | | |]; subst.
    inversion H3 as [| |r4 s4 b t Hb Ht| | | |]; subst.
    apply chr_matches in Ha. apply chr_matches in Hb. subst a b.
    apply plus_class in Hl. apply plus_class in Hd. apply plus_class in Ht.
    exists l, d, t. auto.
  - intros (l & d & t & -> & Hl & Hd & Ht).
    constructor; [now apply plus_class|].
    constructor; [now apply chr_matches|].
    constructor; [now apply plus_class|].
    constructor; [now apply chr_matches|now apply plus_class].
Qed.

Lemma allChars_app (p : ascii -> bool) (x y : string) :
  allChars p (x ++ y) = allChars p x && allChars p y.
Proof.
  induction x as [|c x IH]; simpl; [reflexivity|].
  now rewrite IH, andb_assoc.
Qed.

Lemma countChar_app (a : ascii) (x y : string) :
  countChar a (x ++ y) = (countChar a x + countChar a y)%nat.
Proof.
  induction x as [|c x IH]; simpl; [reflexivity|].
  rewrite IH. destruct (Ascii.eqb c a); reflexivity.
Qed.

Lemma plain_no_space (s : string) :
  allChars (fun c => negb (Js.isSpace c || Ascii.eqb c "@"%char)) s = true ->
  allChars (fun c => negb (Js.isSpace c)) s = true.
Proof.
  induction s as [|c s IH]; simpl; [reflexivity|]. intros H.
  apply andb_true_iff in H. destruct H as [Hc Hs]. rewrite (IH Hs).
  apply negb_true_iff, orb_false_iff in Hc. destruct Hc as [-> _]. reflexivity.
Qed.

Lemma plain_no_at (s : string) :
  allChars (fun c => negb (Js.isSpace c || Ascii.eqb c "@"%char)) s = true ->
  countChar "@"%char s = 0%nat.
Proof.
  induction s as [|c s IH]; simpl; [reflexivity|]. intros H.
  apply andb_true_iff in H. destruct H as [Hc Hs]. rewrite (IH Hs).
  apply negb_true_iff, orb_false_iff in Hc. destruct Hc as [_ ->]. reflexivity.
Qed.

(** X1. The addresses that [isValidEmail] accepts are exactly those of the
    form local@domain.tld in which the three parts are not empty and hold
    neither white space nor an at sign (any of the parts may hold dots).
    So an accepted address holds no white space and exactly one at sign. *)
Theorem isValidEmail_shape (e : string) :
  (AuthService.isValidEmail e = true
   <-> exists l d t,
         e = (l ++ "@" ++ d ++ "." ++ t)%string
         /\ addressPart l /\ addressPart d /\ addressPart t)
  /\ (AuthService.isValidEmail e = true ->
      allChars (fun c => negb (Js.isSpace c)) e = true
      /\ countChar "@"%char e = 1%nat).
Proof.
  split; [apply emailRegex_language|].
  intros H. apply emailRegex_language in H.
  destruct H as (l & d & t & -> & [_ Hl] & [_ Hd] & [_ Ht]).
  rewrite !allChars_app, !countChar_app.
  rewrite (plain_no_space l Hl), (plain_no_space d Hd), (plain_no_space t Ht).
  rewrite (plain_no_at l Hl), (plain_no_at d Hd), (plain_no_at t Ht).
  split; reflexivity.
Qed.

Lemma isValidEmail_shape_witness :
  AuthService.isValidEmail "test@example.com" = true
  /\ countChar "@"%char "admin@example.com" = 1%nat.
Proof.
  split.
  - apply (proj2 (proj1 (isValidEmail_shape "test@example.com"))).
    exists "test", "example", "com".
    split; [reflexivity|]. repeat split; (discriminate || reflexivity).
  - apply (proj2 (isValidEmail_shape "admin@example.com")). reflexivity.
Defined.

(** ** Credentials *)

Lemma find_app_none {A} (p : A -> bool) (l : list A) (x : A) :
  find p l = None -> p x = true -> find p (l ++ [x]) = Some x.
Proof.
  induction l as [|y l IH]; simpl; intros H Hx.
  - now rewrite Hx.
  - destruct (p y); [discriminate|auto].
Qed.

Lemma find_email_none (e : string) (repo : UserRepository) :
  ~ registered e repo ->
  find (fun u => user_email u =? e) (users repo) = None.
Proof.
  intros H. destruct (find (fun u => user_email u =? e) (users repo)) eqn:F;
    auto.
  exfalso. apply H. apply find_email_registered. eauto.
Qed.

(** X2. [validateUser] never throws and never writes to the user table.
    The user it returns, if any, has no [password] property and carries the
    key, address and role of a row with the given address whose hash the
    password matches; it returns nothing only when the address is not
    registered or the password does not match. *)
Theorem validateUser_outcome
    (bcrypt : Bcrypt) (e password : string) (repo : UserRepository) :
  exists r,
    AuthService.validateUser bcrypt e password repo = Ok (r, repo)
    /\ (forall v, r = Some v ->
          p_password v = None
          /\ exists u,
               In u (users repo) /\ user_email u = e
               /\ compare bcrypt password (user_password u) = true
               /\ p_id v = Some (user_id u)
               /\ p_email v = Some e
               /\ p_role v = Some (user_role u))
    /\ (r = None ->
          ~ registered e repo
          \/ exists u,
               In u (users repo) /\ user_email u = e
               /\ compare bcrypt password (user_password u) = false).
Proof.
  unfold AuthService.validateUser, UserRepo.findOneByEmail. unfold_monad.
  destruct (find (fun u => user_email u =? e) (users repo)) as [u|] eqn:F.
  - pose proof (find_some _ _ F) as [Hin He]. apply String.eqb_eq in He.
    destruct (compare bcrypt password (user_password u)) eqn:C; simpl.
    + eexists. split; [reflexivity|]. split; [|discriminate].
      intros v Hv. inversion Hv; subst; clear Hv. cbn. split; auto.
      exists u. repeat split; auto.
    + eexists. split; [reflexivity|]. split; [discriminate|].
      intros _. right. exists u. auto.
  - eexists. split; [reflexivity|]. split; [discriminate|].
    intros _. left. intros R. apply find_email_registered in R.
    destruct R as [u R]. congruence.
Qed.

Lemma validateUser_outcome_witness :
  AuthService.validateUser Sample.bcrypt "nobody@example.com" "password123"
    Sample.oneUser = Ok (None, Sample.oneUser)
  /\ ~ registered "nobody@example.com" Sample.oneUser.
Proof.
  destruct (validateUser_outcome Sample.bcrypt "nobody@example.com"
              "password123" Sample.oneUser) as [r [E [_ N]]].
  assert (Hr : r = None) by (cbv in E; congruence). subst r.
  split; [exact E|].
  destruct (N eq_refl) as [H|[u [[<-|[]] [He _]]]]; [exact H|].
  discriminate He.
Defined.

(** X3. Registration followed by a credential check.  When the hash
    function and the comparison agree on the password, the address and
    password just registered validate to the new user, password removed;
    and a password that the comparison rejects validates to nothing. *)
Theorem register_then_validateUser
    (bcrypt : Bcrypt) (e password : string) (repo repo' : UserRepository)
    (u : User) :
  compare bcrypt password (hash bcrypt password 10) = true ->
  AuthService.register bcrypt e password repo = Ok (u, repo') ->
  AuthService.validateUser bcrypt e password repo'
  = Ok (Some {| p_id := Some (user_id u);
                p_email := Some e;
                p_password := None;
                p_role := Some (user_role u) |}, repo')
  /\ forall wrong,
       compare bcrypt wrong (hash bcrypt password 10) = false ->
       AuthService.validateUser bcrypt e wrong repo' = Ok (None, repo').
Proof.
  intros Hc H. destruct (register_ok bcrypt _ _ _ _ _ H)
    as (_ & _ & Hnew & Hu & Hrows).
  assert (F : find (fun v => user_email v =? e) (users repo') = Some u).
  { rewrite Hrows. apply find_app_none; [now apply find_email_none|].
    subst u. cbn. apply String.eqb_refl. }
  assert (Hp : user_password u = hash bcrypt password 10)
    by (subst u; reflexivity).
  assert (He : user_email u = e) by (subst u; reflexivity).
  unfold AuthService.validateUser, UserRepo.findOneByEmail. unfold_monad.
  rewrite F, Hp. split.
  - rewrite Hc. simpl. now rewrite He.
  - intros wrong Hw. now rewrite Hw.
Qed.

Lemma register_then_validateUser_witness :
  AuthService.validateUser Sample.bcrypt "test@example.com" "password123"
    Sample.oneUser
  = Ok (Some {| p_id := Some "0";
                p_email := Some "test@example.com";
                p_password := None;
                p_role := Some "USER" |}, Sample.oneUser)
  /\ AuthService.validateUser Sample.bcrypt "test@example.com" "wrongpassword"
       Sample.oneUser = Ok (None, Sample.oneUser).
Proof.
  destruct (register_then_validateUser Sample.bcrypt "test@example.com"
              "password123" Sample.noUsers Sample.oneUser Sample.alice
              eq_refl eq_refl) as [A B].
  split; [exact A|]. apply B. reflexivity.
Defined.

Lemma genId_nonempty (n : nat) : genId n <> "".
Proof.
  unfold genId. intros H.
  assert (K : Some (Nat.to_uint n) = Some Decimal.Nil).
  { rewrite <- NilEmpty.usu, H. reflexivity. }
  inversion K as [K'].
  assert (Z : n = 0%nat).
  { rewrite <- (Unsigned.of_to n), K'. reflexivity. }
  subst n. discriminate K'.
Qed.

(** X4. Registration keeps the user table in order: the rows it had are
    kept, in their order, the new user is added behind them, and the key and
    the address of the new user are those of no earlier row. *)
Theorem register_keeps_table
    (bcrypt : Bcrypt) (e password : string) (repo repo' : UserRepository)
    (u : User) :
  userTableOk repo ->
  AuthService.register bcrypt e password repo = Ok (u, repo') ->
  userTableOk repo'
  /\ users repo' = users repo ++ [u]
  /\ forall v, In v (users repo) ->
       user_id v <> user_id u /\ user_email v <> user_email u.
Proof.
  intros (He & Hi & Hk) H.
  pose proof H as H0. apply register_ok in H0.
  destruct H0 as (_ & _ & Hnew & Hu & Hrows).
  assert (Hnext : nextUserId repo' = S (nextUserId repo)).
  { unfold AuthService.register in H.
    destruct (negb (AuthService.isValidEmail e)); [discriminate|].
    destruct (String.length password <? 6)%nat; [discriminate|].
    unfold UserRepo.findOneByEmail in H. unfold_monad.
    destruct (find (fun u => user_email u =? e) (users repo)); [discriminate|].
    unfold UserRepo.save in H. now inversion H. }
  assert (Hid : user_id u = genId (nextUserId repo)) by (subst u; reflexivity).
  assert (Hem : user_email u = e) by (subst u; reflexivity).
  assert (Hold : forall v, In v (users repo) ->
                   user_id v <> user_id u /\ user_email v <> user_email u).
  { intros v Hv. split.
    - destruct (Hk v Hv) as [n [Hn Hvn]]. rewrite Hvn, Hid. intros K.
      apply genId_inj in K. lia.
    - rewrite Hem. intros K. apply Hnew. now exists v. }
  split; [|split; auto].
  unfold userTableOk. rewrite Hrows, !map_app, Hnext. cbn [map]. repeat split.
  - apply NoDup_app; auto.
    + constructor; [intros []|constructor].
    + intros a Ha [K|[]]. apply in_map_iff in Ha. destruct Ha as [v [Hv Hin]].
      destruct (Hold v Hin) as [_ Hne]. congruence.
  - apply NoDup_app; auto.
    + constructor; [intros []|constructor].
    + intros a Ha [K|[]]. apply in_map_iff in Ha. destruct Ha as [v [Hv Hin]].
      destruct (Hold v Hin) as [Hne _]. congruence.
  - intros v Hv. apply in_app_or in Hv. destruct Hv as [Hv|[Hv|[]]].
    + destruct (Hk v Hv) as [n [Hn Hvn]]. exists n. split; [lia|auto].
    + subst v. exists (nextUserId repo). split; [lia|auto].
Qed.

Lemma register_keeps_table_witness :
  userTableOk Sample.oneUser
  /\ users Sample.oneUser = users Sample.noUsers ++ [Sample.alice].
Proof.
  assert (K : userTableOk Sample.noUsers).
  { repeat split; try constructor. intros u []. }
  destruct (register_keeps_table Sample.bcrypt "test@example.com"
              "password123" Sample.noUsers Sample.oneUser Sample.alice
              K eq_refl) as [A [B _]].
  split; assumption.
Defined.

(** ** Tokens *)

Lemma find_by_id_unique (l : list User) (u : User) :
  NoDup (map user_id l) -> In u l ->
  find (fun v => user_id v =? user_id u) l = Some u.
Proof.
  induction l as [|y l IH]; simpl; intros Hn Hin; [contradiction|].
  inversion Hn as [|a m Hnot Hn']; subst.
  destruct (String.eqb_spec (user_id y) (user_id u)) as [E|E].
  - destruct Hin as [->|Hin]; [reflexivity|].
    exfalso. apply Hnot. rewrite E. now apply in_map.
  - destruct Hin as [->|Hin]; [congruence|auto].
Qed.

(** X5. Login followed by the exchange of the refresh token.  For a user of
    a user table in order, whose address and role are not empty, and a
    refresh-token service that verifies what it signed for that user, the
    refresh token that [login] issues is accepted by [refreshToken], which
    answers with the tokens of a login of that same user and leaves the
    table as it is. *)
Theorem login_then_refresh
    (jwtService refreshJwtService : JwtService) (repo : UserRepository)
    (u : User) :
  userTableOk repo ->
  In u (users repo) ->
  user_email u <> "" -> user_role u <> "" ->
  verify refreshJwtService
    (sign refreshJwtService (payloadOf (asPartial u)))
  = Some (payloadOf (asPartial u)) ->
  AuthService.refreshToken jwtService refreshJwtService
    (refresh_token
       (AuthService.login jwtService refreshJwtService (asPartial u)))
    repo
  = Ok (AuthService.login jwtService refreshJwtService (asPartial u), repo).
Proof.
  intros (_ & Hi & Hk) Hin He Hr Hv.
  rewrite refreshToken_cases.
  unfold AuthService.login at 1. cbn [refresh_token].
  fold (payloadOf (asPartial u)). rewrite Hv.
  cbn [payloadOf asPartial sub email role p_id p_email p_role Js.truthy
         Js.valueOf].
  destruct (Hk u Hin) as [n [_ Hid]].
  assert (Hne : user_id u <> "") by (rewrite Hid; apply genId_nonempty).
  apply String.eqb_neq in Hne, He, Hr. rewrite Hne, He, Hr. cbn [negb orb].
  now rewrite (find_by_id_unique _ _ Hi Hin).
Qed.

Lemma login_then_refresh_witness :
  AuthService.refreshToken (Sample.jwt "access") (Sample.jwt "refresh")
    (refresh_token
       (AuthService.login (Sample.jwt "access") (Sample.jwt "refresh")
          (asPartial Sample.alice)))
    Sample.oneUser
  = Ok (AuthService.login (Sample.jwt "access") (Sample.jwt "refresh")
          (asPartial Sample.alice), Sample.oneUser).
Proof.
  apply login_then_refresh.
  - repeat split; try (constructor; [intros []|constructor]).
    intros u [<-|[]]. exists 0%nat. split; [cbn; lia|reflexivity].
  - now left.
  - discriminate.
  - discriminate.
  - reflexivity.
Defined.

(** X6. The identity behind a token.  When a token service verifies what it
    signed for a user, the acting user that the strategy derives from the
    token [login] issued has the key, address and role of that user and no
    [password] property, whatever the user passed to [login] held. *)
Theorem token_identity
    (jwtService refreshJwtService : JwtService) (user : PartialUser) :
  verify jwtService (sign jwtService (payloadOf user))
  = Some (payloadOf user) ->
  verify refreshJwtService (sign refreshJwtService (payloadOf user))
  = Some (payloadOf user) ->
  let tokens := AuthService.login jwtService refreshJwtService user in
  let identity := {| p_id := p_id user; p_email := p_email user;
                     p_password := None; p_role := p_role user |} in
  option_map JwtStrategy.validate (verify jwtService (access_token tokens))
  = Some identity
  /\ option_map RefreshTokenStrategy.validate
       (verify refreshJwtService (refresh_token tokens))
     = Some identity.
Proof.
  intros Ha Hr tokens identity. unfold tokens, AuthService.login.
  cbn [access_token refresh_token]. fold (payloadOf user).
  rewrite Ha, Hr. split; reflexivity.
Qed.

Lemma token_identity_witness :
  option_map JwtStrategy.validate
    (verify (Sample.jwt "access")
       (access_token
          (AuthService.login (Sample.jwt "access") (Sample.jwt "refresh")
             (asPartial Sample.alice))))
  = Some {| p_id := Some "0"; p_email := Some "test@example.com";
            p_password := None; p_role := Some "USER" |}.
Proof.
  exact (proj1 (token_identity (Sample.jwt "access") (Sample.jwt "refresh")
                  (asPartial Sample.alice) eq_refl eq_refl)).
Defined.

(** ** Creating, reading and removing tasks *)

Lemma find_hasId_none (i : string) (rows : list Task) :
  (forall r, In r rows -> task_id r <> i) ->
  find (TaskRepo.hasId i) rows = None.
Proof.
  intros H. destruct (find (TaskRepo.hasId i) rows) as [r|] eqn:F; auto.
  apply find_some in F. destruct F as [Hin Hid]. apply hasId_eq in Hid.
  exfalso. now apply (H r).
Qed.

Lemma find_removed (i j : string) (rows : list Task) :
  find (TaskRepo.hasId i)
    (filter (fun r => negb (TaskRepo.hasId j r)) rows)
  = if i =? j then None else find (TaskRepo.hasId i) rows.
Proof.
  induction rows as [|r rows IH]; simpl.
  - now destruct (i =? j).
  - destruct (TaskRepo.hasId j r) eqn:J; simpl.
    + rewrite IH. destruct (String.eqb_spec i j) as [E|E]; auto.
      assert (TaskRepo.hasId i r = false) as ->; auto.
      destruct (TaskRepo.hasId i r) eqn:I; auto.
      apply hasId_eq in I. apply hasId_eq in J. congruence.
    + destruct (TaskRepo.hasId i r) eqn:I.
      * destruct (String.eqb_spec i j) as [E|E]; auto.
        subst j. congruence.
      * exact IH.
Qed.

(** X7. Input that passes the checks is never turned down: with a title
    that is not empty, a status that is absent or one of the enum, and a due
    date that is absent or parses, [create] succeeds.  The task it returns
    and appends to the table has the next key of the counter, the title,
    description and due date given, the status given or else TODO, and the
    acting user as owner. *)
Theorem create_accepts
    (dateParse : string -> option Z) (title : string)
    (description status : option string) (dueDate : option Js.DateValue)
    (user : User) (repo : TaskRepository) :
  title <> "" ->
  (status = None \/ exists s, status = Some s /\ In s TaskStatus.values) ->
  (dueDate = None
   \/ exists d, dueDate = Some d /\ TasksService.getTime dateParse d <> None) ->
  let t := {| task_id := genId (nextTaskId repo);
              task_title := title;
              task_description := description;
              task_status := match status with
                             | Some s => s
                             | None => TaskStatus.TODO
                             end;
              task_dueDate := dueDate;
              task_user := user;
              task_userId := user_id user |} in
  TasksService.create dateParse
    {| dto_title := Some title; dto_description := description;
       dto_status := status; dto_dueDate := dueDate |} user repo
  = Ok (t, {| tasks := tasks repo ++ [t];
              nextTaskId := S (nextTaskId repo) |}).
Proof.
  intros Ht Hs Hd t. unfold TasksService.create. cbn [dto_title dto_status
    dto_dueDate Js.truthy].
  apply String.eqb_neq in Ht. rewrite Ht. cbn [negb].
  assert (TasksService.invalidStatus status = false) as ->.
  { destruct Hs as [->|[s [-> Hin]]]; [reflexivity|].
    unfold TasksService.invalidStatus. cbn [Js.valueOf].
    apply includes_In in Hin. rewrite Hin. apply andb_false_r. }
  assert (TasksService.invalidDate dateParse dueDate = false) as ->.
  { destruct Hd as [->|[d [-> Hok]]]; [reflexivity|].
    unfold TasksService.invalidDate.
    destruct (TasksService.getTime dateParse d); [|congruence].
    apply andb_false_r. }
  reflexivity.
Qed.

Lemma create_accepts_witness :
  TasksService.create Sample.dateParse
    {| dto_title := Some "Test Task"; dto_description := None;
       dto_status := None;
       dto_dueDate := Some (Js.DateStr "2024-04-15T00:00:00.000Z") |}
    Sample.alice Sample.noTasks
  = Ok ({| task_id := "0"; task_title := "Test Task";
           task_description := None; task_status := "TODO";
           task_dueDate := Some (Js.DateStr "2024-04-15T00:00:00.000Z");
           task_user := Sample.alice; task_userId := "0" |},
        {| tasks := [{| task_id := "0"; task_title := "Test Task";
                        task_description := None; task_status := "TODO";
                        task_dueDate :=
                          Some (Js.DateStr "2024-04-15T00:00:00.000Z");
                        task_user := Sample.alice; task_userId := "0" |}];
           nextTaskId := 1 |}).
Proof.
  apply (create_accepts Sample.dateParse "Test Task" None None
           (Some (Js.DateStr "2024-04-15T00:00:00.000Z")) Sample.alice
           Sample.noTasks).
  - discriminate.
  - now left.
  - right. eexists. split; [reflexivity|]. discriminate.
Defined.

(** X8. A task just created can be read back, by its owner and by an admin
    and by nobody else.  On a table whose keys were issued by the counter,
    after [create] by a user: [findOne] with the new key returns the new
    task to that user and to any admin, and [findOne], [update] and [remove]
    fail with Forbidden for any other user who is not an admin; the tasks
    that were in the table are found as before. *)
Theorem create_then_findOne
    (dateParse : string -> option Z) (dto : CreateTaskDto) (user : User)
    (repo repo' : TaskRepository) (t : Task) :
  keysIssued repo ->
  TasksService.create dateParse dto user repo = Ok (t, repo') ->
  TasksService.findOne (task_id t) user repo' = Ok (t, repo')
  /\ (forall a, user_role a = UserRole.ADMIN ->
        TasksService.findOne (task_id t) a repo' = Ok (t, repo'))
  /\ (forall b patch,
        user_role b <> UserRole.ADMIN -> user_id b <> user_id user ->
        thrown (TasksService.findOne (task_id t) b repo') = Some Forbidden
        /\ thrown (TasksService.update dateParse (task_id t) patch b repo')
           = Some Forbidden
        /\ thrown (TasksService.remove (task_id t) b repo') = Some Forbidden)
  /\ (forall i t0,
        find (TaskRepo.hasId i) (tasks repo) = Some t0 ->
        find (TaskRepo.hasId i) (tasks repo') = Some t0).
Proof.
  intros Hk H. apply create_ok in H. unfold TaskRepo.insert in H.
  inversion H as [[Ht Hr]]. clear H.
  set (t1 := {| task_id := genId (nextTaskId repo);
                task_title := Js.valueOf (dto_title dto);
                task_description := dto_description dto;
                task_status := match dto_status dto with
                               | Some s => s
                               | None => TaskStatus.TODO
                               end;
                task_dueDate := dto_dueDate dto;
                task_user := user;
                task_userId := user_id user |}) in *.
  subst t repo'.
  set (repo1 := {| tasks := tasks repo ++ [t1];
                   nextTaskId := S (nextTaskId repo) |}).
  assert (F : find (TaskRepo.hasId (task_id t1)) (tasks repo1) = Some t1).
  { cbn [tasks repo1].
    rewrite find_snoc, find_hasId_none, hasId_self; [reflexivity|].
    intros r Hin K. destruct (Hk r Hin) as [n [Hn Hid]].
    rewrite Hid in K. cbn in K. apply genId_inj in K. lia. }
  split; [|split; [|split]].
  - apply findOne_entitled; [exact F|]. right. reflexivity.
  - intros a Ha. apply findOne_entitled; [exact F|]. now left.
  - intros b patch Hrole Hid.
    assert (Hb : ~ entitled b t1).
    { intros [K|K]; [contradiction|]. cbn in K. congruence. }
    pose proof (findOne_forbidden _ b _ t1 F Hb) as Hone.
    split; [now rewrite Hone|]. split.
    + now rewrite (update_throws_findOne _ _ _ _ _ _ Hone).
    + now rewrite (remove_throws_findOne _ _ _ _ Hone).
  - intros i t0 F0. cbn [tasks repo1]. rewrite find_snoc, F0. reflexivity.
Qed.

Lemma create_then_findOne_witness :
  TasksService.findOne "0" Sample.alice Sample.oneTask
  = Ok (Sample.aliceTask, Sample.oneTask)
  /\ thrown (TasksService.findOne "0" Sample.bob Sample.oneTask)
     = Some Forbidden.
Proof.
  assert (K : keysIssued Sample.noTasks) by (intros t []).
  destruct (create_then_findOne Sample.dateParse (Sample.dto "Test Task")
              Sample.alice Sample.noTasks Sample.oneTask Sample.aliceTask
              K eq_refl) as [A [_ [B _]]].
  split; [exact A|].
  apply (B Sample.bob (Sample.statusPatch "DONE")); discriminate.
Defined.

(** X9. A task that was removed is gone.  After a successful [remove],
    [findOne] with the same key fails with NotFound for every user, the
    tasks under other keys are found as before, and the key counter has not
    moved. *)
Theorem remove_then_findOne
    (id : string) (u : User) (repo repo' : TaskRepository) :
  TasksService.remove id u repo = Ok (tt, repo') ->
  (forall v, thrown (TasksService.findOne id v repo') = Some NotFound)
  /\ (forall i, i <> id ->
        find (TaskRepo.hasId i) (tasks repo')
        = find (TaskRepo.hasId i) (tasks repo))
  /\ nextTaskId repo' = nextTaskId repo.
Proof.
  intros H. destruct (remove_ok _ _ _ _ H) as [t [F [_ R]]].
  pose proof (find_some _ _ F) as [_ Hid]. apply hasId_eq in Hid.
  unfold TaskRepo.remove, modify in R. inversion R; subst; clear R.
  cbn [tasks nextTaskId]. split; [|split; [|reflexivity]].
  - intros v. rewrite findOne_missing; [reflexivity|].
    cbn [tasks]. rewrite find_removed, String.eqb_refl. reflexivity.
  - intros i Hi. rewrite find_removed.
    apply String.eqb_neq in Hi. now rewrite Hi.
Qed.

Lemma remove_then_findOne_witness :
  thrown (TasksService.findOne "0" Sample.alice
            {| tasks := []; nextTaskId := 1 |})
  = Some NotFound.
Proof.
  destruct (remove_then_findOne "0" Sample.alice Sample.oneTask
              {| tasks := []; nextTaskId := 1 |} eq_refl) as [A _].
  exact (A Sample.alice).
Defined.

(** ** Listings *)

(** X11. What a listing holds.  A listing that returns has not written to
    the table.  Every task on its page is a row of the table; when a status
    that is not empty is asked for, every task on the page has that status;
    when a due date is asked for, every task on the page has a due date with
    that time value; and the total is at most the number of rows.  A listing
    returns when the page and the limit, 1 and 10 when left out, are at
    least 1, the status asked for, if any, is one of the enum and the due
    date asked for is not an Invalid Date.  It fails, with the error of the
    query and no HTTP exception, when the offset or the limit it asks the
    query for is negative. *)
Theorem findAll_filters
    (dateParse : string -> option Z) (u : User) (status : option string)
    (dueDate : option (option Z)) (page limit : option Z)
    (repo : TaskRepository) :
  (forall pg repo',
      TasksService.findAll dateParse u status dueDate page limit repo
      = Ok (pg, repo') ->
      repo' = repo
      /\ (page_total pg <= length (tasks repo))%nat
      /\ forall t, In t (page_tasks pg) ->
           In t (tasks repo)
           /\ (forall s, status = Some s -> s <> "" -> task_status t = s)
           /\ (forall d, dueDate = Some d ->
                 exists v time,
                   task_dueDate t = Some v
                   /\ TasksService.getTime dateParse v = Some time
                   /\ d = Some time))
  /\ ((1 <= Js.orNum page 1)%Z -> (1 <= Js.orNum limit 10)%Z ->
      (Js.truthy status = true -> In (Js.valueOf status) TaskStatus.values) ->
      dueDate <> Some None ->
      exists pg,
        TasksService.findAll dateParse u status dueDate page limit repo
        = Ok (pg, repo))
  /\ (((Js.orNum page 1 - 1) * Js.orNum limit 10 < 0)%Z
      \/ (Js.orNum limit 10 < 0)%Z ->
      TasksService.findAll dateParse u status dueDate page limit repo
      = Throw (JsError "QueryFailedError")).
Proof.
  split; [|split].
  - intros pg repo' H.
    destruct (findAll_returned dateParse _ _ _ _ _ _ _ _ H)
      as (Hr & Hp & Ht).
    split; [exact Hr|]. rewrite Hp, Ht. split.
    + apply filter_length_le.
    + intros t Hin. apply In_firstn, In_skipn, filter_In in Hin.
      destruct Hin as [Hrow Hm]. split; [exact Hrow|].
      unfold matches, filtersOk in Hm.
      apply andb_true_iff in Hm. destruct Hm as [_ Hm].
      apply andb_true_iff in Hm. destruct Hm as [Hs Hd]. split.
      * intros s -> Hne. cbn in Hs. apply String.eqb_neq in Hne.
        rewrite Hne in Hs. cbn in Hs. now apply String.eqb_eq in Hs.
      * intros d ->. unfold TasksService.dueDateIs in Hd.
        destruct (task_dueDate t) as [v|]; [|discriminate].
        destruct (TasksService.getTime dateParse v) as [a|] eqn:G;
          [|discriminate].
        destruct d as [b|]; [|discriminate].
        apply Z.eqb_eq in Hd. subst b. exists v, a. auto.
  - intros Hp Hl _ _. eexists. apply findAll_page_ok; lia.
  - intros Hneg. rewrite findAll_page. cbv zeta.
    assert ((((Js.orNum page 1 - 1) * Js.orNum limit 10 <? 0)%Z
             || (Js.orNum limit 10 <? 0)%Z) = true) as ->; [|reflexivity].
    apply orb_true_iff. destruct Hneg as [Hneg|Hneg]; [left|right];
      now apply Z.ltb_lt.
Qed.

Lemma findAll_filters_witness :
  Forall (fun t => task_status t = "TODO")
    (listed Sample.dateParse Sample.alice (Some "TODO") None 1 10
       (Sample.created 3 Sample.alice))
  /\ TasksService.findAll Sample.dateParse Sample.alice None None
       (Some (-1)%Z) (Some 10%Z) (Sample.created 3 Sample.alice)
     = Throw (JsError "QueryFailedError").
Proof.
  split.
  - apply Forall_forall. intros t Hin.
    destruct (findAll_filters Sample.dateParse Sample.alice (Some "TODO") None
                (Some 1%Z) (Some 10%Z) (Sample.created 3 Sample.alice))
      as [H [R _]].
    destruct (R ltac:(cbn; lia) ltac:(cbn; lia)
                ltac:(intros _; cbn; now left) ltac:(discriminate))
      as [pg E].
    unfold listed in Hin. rewrite E in Hin.
    destruct (H pg _ E) as [_ [_ K]].
    destruct (K t Hin) as [_ [S _]]. apply S; [reflexivity|discriminate].
  - destruct (findAll_filters Sample.dateParse Sample.alice None None
                (Some (-1)%Z) (Some 10%Z) (Sample.created 3 Sample.alice))
      as [_ [_ T]].
    apply T. left. cbn. lia.
Defined.

(** ** Updating tasks *)

Lemma update_valid (dateParse : string -> option Z) (id : string)
    (patch : PartialTask) (u : User) (repo repo' : TaskRepository)
    (t' : Task) :
  TasksService.update dateParse id patch u repo = Ok (t', repo') ->
  TasksService.invalidStatus (pt_status patch) = false
  /\ TasksService.invalidDate dateParse (pt_dueDate patch) = false.
Proof.
  intros H. destruct (update_ok _ _ _ _ _ _ _ H) as [t [F [He _]]].
  rewrite (update_after_findOne dateParse _ _ _ _ _
             (findOne_entitled id u repo t F He)) in H.
  destruct (TasksService.invalidStatus (pt_status patch)); [discriminate|].
  destruct (TasksService.invalidDate dateParse (pt_dueDate patch));
    [discriminate|auto].
Qed.

Lemma create_valid (dateParse : string -> option Z) (dto : CreateTaskDto)
    (user : User) (repo repo' : TaskRepository) (t : Task) :
  TasksService.create dateParse dto user repo = Ok (t, repo') ->
  Js.truthy (dto_title dto) = true
  /\ TasksService.invalidStatus (dto_status dto) = false
  /\ TasksService.invalidDate dateParse (dto_dueDate dto) = false.
Proof.
  unfold TasksService.create.
  destruct (Js.truthy (dto_title dto)); [|discriminate].
  destruct (TasksService.invalidStatus (dto_status dto)); [discriminate|].
  destruct (TasksService.invalidDate dateParse (dto_dueDate dto));
    [discriminate|auto].
Qed.

Lemma assign_twice (t : Task) (patch : PartialTask) :
  assign (assign t patch) patch = assign t patch.
Proof.
  unfold assign. cbn.
  destruct (pt_id patch), (pt_title patch), (pt_description patch),
    (pt_status patch), (pt_dueDate patch), (pt_user patch),
    (pt_userId patch); reflexivity.
Qed.

(** X12. Updating twice is updating once.  When [update] with a patch that
    names neither the key nor the owner succeeds, the same call made again
    succeeds with the same task and leaves the table as the first call left
    it. *)
Theorem update_twice
    (dateParse : string -> option Z) (id : string) (patch : PartialTask)
    (u : User) (repo repo1 : TaskRepository) (t1 : Task) :
  dtoShaped patch ->
  TasksService.update dateParse id patch u repo = Ok (t1, repo1) ->
  TasksService.update dateParse id patch u repo1 = Ok (t1, repo1).
Proof.
  intros Hshape H.
  destruct (update_valid _ _ _ _ _ _ _ H) as [Vs Vd].
  destruct (update_kept _ _ _ _ _ _ _ Hshape H)
    as [t (F & He & Ht & Hk1 & Hrows & Hnext)].
  destruct Hshape as (Hid & Huser & Huid).
  assert (Hu1 : task_user t1 = task_user t)
    by (subst t1; unfold assign; cbn [task_user]; now rewrite Huser).
  assert (He1 : entitled u t1).
  { destruct He as [He|He]; [now left|right]. now rewrite Hu1. }
  assert (F1 : find (TaskRepo.hasId id) (tasks repo1) = Some t1)
    by (rewrite Hrows; now apply find_saved).
  assert (Ha : assign t1 patch = t1) by (rewrite Ht; apply assign_twice).
  rewrite (update_after_findOne dateParse _ _ _ _ _
             (findOne_entitled id u repo1 t1 F1 He1)).
  rewrite Vs, Vd, Ha.
  rewrite (save_loaded t1 t1 repo1);
    [|rewrite Hk1; exact F1|reflexivity|reflexivity].
  rewrite Hk1. destruct repo1 as [rows1 next1]. cbn [tasks nextTaskId] in *.
  rewrite Hrows at 1. rewrite (filter_saved id t1 _ Hk1), <- Hrows.
  reflexivity.
Qed.

Lemma update_twice_witness :
  TasksService.update Sample.dateParse "0" (Sample.statusPatch "DONE")
    Sample.alice
    {| tasks := [assign Sample.aliceTask (Sample.statusPatch "DONE")];
       nextTaskId := 1 |}
  = Ok (assign Sample.aliceTask (Sample.statusPatch "DONE"),
        {| tasks := [assign Sample.aliceTask (Sample.statusPatch "DONE")];
           nextTaskId := 1 |}).
Proof.
  apply (update_twice Sample.dateParse "0" (Sample.statusPatch "DONE")
           Sample.alice Sample.oneTask).
  - repeat split.
  - reflexivity.
Defined.

Lemma statusChecked (v : option string) :
  TasksService.invalidStatus v = false ->
  forall s, v = Some s -> s = "" \/ In s TaskStatus.values.
Proof.
  intros H s ->. unfold TasksService.invalidStatus in H. cbn in H.
  destruct (String.eqb_spec s ""); [now left|]. cbn in H.
  apply negb_false_iff in H. right. now apply includes_In.
Qed.

Lemma statusStored_runCall (dateParse : string -> option Z) (c : TaskCall)
    (repo : TaskRepository) :
  (forall t, In t (tasks repo) -> statusStored t) ->
  forall t, In t (tasks (runCall dateParse c repo)) -> statusStored t.
Proof.
  intros Hinv. destruct c as [dto user|id patch user|id user]; simpl.
  - destruct (TasksService.create dateParse dto user repo) as [[t0 repo']|e]
      eqn:E; auto.
    destruct (create_valid _ _ _ _ _ _ E) as (_ & Vs & _).
    apply create_ok in E. unfold TaskRepo.insert in E.
    inversion E; subst; clear E. cbn [tasks].
    intros t Hin. apply in_app_or in Hin.
    destruct Hin as [Hin|[Hin|[]]]; auto.
    subst t. unfold statusStored. cbn [task_status].
    destruct (dto_status dto) as [s|] eqn:Es.
    + now apply (statusChecked _ Vs).
    + right. now left.
  - destruct (TasksService.update dateParse id patch user repo)
      as [[t' repo']|e] eqn:E; auto.
    destruct (update_valid _ _ _ _ _ _ _ E) as (Vs & _).
    destruct (update_ok _ _ _ _ _ _ _ E) as [t0 [F [_ S]]].
    pose proof (find_some _ _ F) as [Hin0 _].
    intros t Hin.
    destruct (save_rows _ _ _ _ _ S Hin) as [[k ->]|[Hin' _]]; auto.
    unfold statusStored, withUserId, assign. cbn [task_status].
    destruct (pt_status patch) as [s|] eqn:Es.
    + now apply (statusChecked _ Vs).
    + now apply Hinv.
  - destruct (TasksService.remove id user repo) as [[[] repo']|e] eqn:E; auto.
    destruct (remove_ok _ _ _ _ E) as [t0 [_ [_ R]]].
    unfold TaskRepo.remove, modify in R. inversion R; subst; clear R.
    cbn [tasks]. intros t Hin. apply filter_In in Hin. now apply Hinv.
Qed.

(** X13. No status outside the enum is ever stored, the empty string apart.
    If every task of a table has a status that is TODO, IN_PROGRESS, DONE or
    empty, then so has every task of the table after any calls of [create],
    [update] and [remove], whatever their inputs and patches. *)
Theorem status_stays_checked
    (dateParse : string -> option Z) (cs : list TaskCall)
    (repo : TaskRepository) :
  (forall t, In t (tasks repo) -> statusStored t) ->
  forall t, In t (tasks (runCalls dateParse cs repo)) -> statusStored t.
Proof.
  unfold runCalls. revert repo.
  induction cs as [|c cs IH]; simpl; intros repo Hinv; auto.
  apply IH. now apply statusStored_runCall.
Qed.

Lemma status_stays_checked_witness :
  Forall statusStored
    (tasks (runCalls Sample.dateParse
              [CallCreate (Sample.dto "Test Task") Sample.alice;
               CallUpdate "0" (Sample.statusPatch "BOGUS") Sample.alice;
               CallUpdate "0" (Sample.statusPatch "DONE") Sample.alice]
              Sample.noTasks)).
Proof.
  apply Forall_forall. apply status_stays_checked. intros t [].
Defined.

(** ** The task controller *)

(** X14. The listing route.  A page that is given and is not a number of at
    least 1 is turned down with BadRequest, "Page must be a positive
    number", whatever the limit; with an acceptable page, a limit that is
    given and is not a number of at least 1 is turned down with "Limit must
    be a positive number".  With an acceptable page and limit, a status
    that is left out, empty or one of the enum and a due date that is left
    out, empty or parses, the route answers with the listing of the service
    for page [p] and limit [l], where [p] is the page given or else 1 and
    [l] the limit given or else 10: it skips [(p - 1) * l] matching rows,
    holds at most [l] tasks and counts all matching rows. *)
Theorem controller_findAll
    (dateParse : string -> option Z) (status dueDate : option string)
    (page limit : option TasksController.JsNumber) (user : User)
    (repo : TaskRepository) :
  let bad (v : option TasksController.JsNumber) :=
    v = Some TasksController.NaN
    \/ exists z, v = Some (TasksController.Num z) /\ (z < 1)%Z in
  let good (v : option TasksController.JsNumber) (d z : Z) :=
    (v = None /\ z = d)
    \/ (v = Some (TasksController.Num z) /\ (1 <= z)%Z) in
  let result :=
    TasksController.findAll dateParse status dueDate page limit user repo in
  (bad page ->
     result = Throw (BadRequestException "Page must be a positive number"))
  /\ (forall p, good page 1%Z p -> bad limit ->
        result
        = Throw (BadRequestException "Limit must be a positive number"))
  /\ (forall p l, good page 1%Z p -> good limit 10%Z l ->
        (Js.truthy status = true ->
         In (Js.valueOf status) TaskStatus.values) ->
        (Js.truthy dueDate = true ->
         dateParse (Js.valueOf dueDate) <> None) ->
        let matching :=
          filter (matches dateParse user status
                    (if Js.truthy dueDate
                     then Some (dateParse (Js.valueOf dueDate)) else None))
            (tasks repo) in
        exists pg,
          result = Ok (pg, repo)
          /\ page_tasks pg
             = firstn (Z.to_nat l) (skipn (Z.to_nat ((p - 1) * l)) matching)
          /\ (length (page_tasks pg) <= Z.to_nat l)%nat
          /\ page_total pg = length matching).
Proof.
  intros bad good result. subst bad good result. cbv beta.
  unfold TasksController.findAll. split; [|split].
  - intros [->|[z [-> Hz]]]; cbn.
    + reflexivity.
    + apply Z.ltb_lt in Hz. now rewrite Hz.
  - intros p Hp Hl.
    assert (TasksController.notPositive page = false) as ->.
    { destruct Hp as [[-> _]|[-> Hp]]; cbn; [reflexivity|].
      apply Z.ltb_ge. lia. }
    destruct Hl as [->|[z [-> Hz]]]; cbn.
    + reflexivity.
    + apply Z.ltb_lt in Hz. now rewrite Hz.
  - intros p l Hp Hl _ _.
    assert (TasksController.notPositive page = false) as ->.
    { destruct Hp as [[-> _]|[-> Hp]]; cbn; [reflexivity|].
      apply Z.ltb_ge. lia. }
    assert (TasksController.notPositive limit = false) as ->.
    { destruct Hl as [[-> _]|[-> Hl]]; cbn; [reflexivity|].
      apply Z.ltb_ge. lia. }
    assert (El : Js.orNum (TasksController.numArg limit) 10 = l /\ (1 <= l)%Z).
    { destruct Hl as [[-> ->]|[-> Hl]]; cbn; [split; [reflexivity|lia]|].
      destruct (Z.eqb_spec l 0); [lia|split; [reflexivity|lia]]. }
    assert (Ep : Js.orNum (TasksController.numArg page) 1 = p /\ (1 <= p)%Z).
    { destruct Hp as [[-> ->]|[-> Hp]]; cbn; [split; [reflexivity|lia]|].
      destruct (Z.eqb_spec p 0); [lia|split; [reflexivity|lia]]. }
    destruct El as [El Hl1]. destruct Ep as [Ep Hp1].
    eexists. split; [apply findAll_page_ok; lia|].
    cbn [page_tasks page_total]. rewrite Ep, El.
    split; [reflexivity|]. split; [|reflexivity].
    apply firstn_le_length.
Qed.

Lemma controller_findAll_witness :
  TasksController.findAll Sample.dateParse None None
    (Some (TasksController.Num 0)) (Some (TasksController.Num 0))
    Sample.alice (Sample.created 5 Sample.alice)
  = Throw (BadRequestException "Page must be a positive number")
  /\ TasksController.findAll Sample.dateParse None None
       (Some (TasksController.Num 1)) (Some TasksController.NaN)
       Sample.alice (Sample.created 5 Sample.alice)
     = Throw (BadRequestException "Limit must be a positive number")
  /\ exists pg,
       TasksController.findAll Sample.dateParse None None
         (Some (TasksController.Num 1)) (Some (TasksController.Num 2))
         Sample.alice (Sample.created 5 Sample.alice)
       = Ok (pg, Sample.created 5 Sample.alice)
       /\ length (page_tasks pg) = 2%nat
       /\ page_total pg = 5%nat.
Proof.
  split; [|split].
  - apply (proj1 (controller_findAll Sample.dateParse None None
                    (Some (TasksController.Num 0))
                    (Some (TasksController.Num 0)) Sample.alice
                    (Sample.created 5 Sample.alice))).
    right. exists 0%Z. split; [reflexivity|lia].
  - apply (proj1 (proj2 (controller_findAll Sample.dateParse None None
                           (Some (TasksController.Num 1))
                           (Some TasksController.NaN) Sample.alice
                           (Sample.created 5 Sample.alice))) 1%Z).
    + right. split; [reflexivity|lia].
    + now left.
  - destruct (proj2 (proj2 (controller_findAll Sample.dateParse None None
                              (Some (TasksController.Num 1))
                              (Some (TasksController.Num 2)) Sample.alice
                              (Sample.created 5 Sample.alice))) 1%Z 2%Z)
      as [pg [E [T [_ N]]]].
    + right. split; [reflexivity|lia].
    + right. split; [reflexivity|lia].
    + discriminate.
    + discriminate.
    + exists pg. split; [exact E|]. rewrite T, N.
      split; vm_compute; reflexivity.
Defined.

(** X15. An update through the controller cannot move a task.  Whatever the
    body of the request, when the route succeeds the task keeps its key, its
    owner and its owner column, the acting user was entitled to act on it,
    the updated task is what the table then holds under the key, the tasks
    under other keys are as they were, and a table whose keys were issued by
    the counter and whose owner columns agree with the owners stays so. *)
Theorem controller_update_keeps_owner
    (dateParse : string -> option Z) (id : string) (dto : UpdateTaskDto)
    (user : User) (repo repo' : TaskRepository) (t' : Task) :
  TasksController.update dateParse id dto user repo = Ok (t', repo') ->
  exists t,
    find (TaskRepo.hasId id) (tasks repo) = Some t
    /\ entitled user t
    /\ task_id t' = id
    /\ task_user t' = task_user t
    /\ task_userId t' = task_userId t
    /\ find (TaskRepo.hasId id) (tasks repo') = Some t'
    /\ (forall i, i <> id ->
          find (TaskRepo.hasId i) (tasks repo')
          = find (TaskRepo.hasId i) (tasks repo))
    /\ (keysIssued repo /\ joined repo -> keysIssued repo' /\ joined repo').
Proof.
  unfold TasksController.update. intros H.
  assert (Hshape : dtoShaped (asPatch dto)) by (repeat split).
  destruct (update_kept _ _ _ _ _ _ _ Hshape H)
    as [t (F & He & Ht & Hk & Hrows & Hnext)].
  exists t.
  split; [exact F|]. split; [exact He|]. split; [exact Hk|].
  split; [rewrite Ht; reflexivity|]. split; [rewrite Ht; reflexivity|].
  split; [rewrite Hrows; now apply find_saved|].
  split; [intros i Hi; rewrite Hrows; now apply find_other_saved|].
  intros Hinv.
  pose proof (keysIssued_joined_runCall dateParse
                (CallUpdate id (asPatch dto) user) repo) as K.
  cbn [runCall callDtoShaped] in K. rewrite H in K.
  apply K; [exact Hshape|exact Hinv].
Qed.

Lemma controller_update_keeps_owner_witness :
  exists t,
    find (TaskRepo.hasId "0") (tasks Sample.oneTask) = Some t
    /\ task_user
         (assign Sample.aliceTask
            (asPatch {| ud_title := Some "Renamed"; ud_description := None;
                        ud_status := Some "DONE"; ud_dueDate := None |}))
       = task_user t.
Proof.
  destruct (controller_update_keeps_owner Sample.dateParse "0"
              {| ud_title := Some "Renamed"; ud_description := None;
                 ud_status := Some "DONE"; ud_dueDate := None |}
              Sample.admin Sample.oneTask
              {| tasks :=
                   [assign Sample.aliceTask
                      (asPatch {| ud_title := Some "Renamed";
                                  ud_description := None;
                                  ud_status := Some "DONE";
                                  ud_dueDate := None |})];
                 nextTaskId := 1 |}
              _ eq_refl) as [t [F [_ [_ [U _]]]]].
  exists t. split; assumption.
Defined.

(** ** The order of the checks *)

(** X16. The checks of [register], in their order.  A malformed address is
    reported whatever the password and the table hold; with a well-formed
    address, a password of fewer than six characters is reported even when
    the address is taken; "Email already exists" is reported only for a
    well-formed address, a password of six characters or more and an address
    that is registered.  [register] fails with no other exception class than
    BadRequest. *)
Theorem register_error_order
    (bcrypt : Bcrypt) (e password : string) (repo : UserRepository) :
  (AuthService.isValidEmail e = false ->
     AuthService.register bcrypt e password repo
     = Throw (BadRequestException "Invalid email format"))
  /\ (AuthService.isValidEmail e = true ->
      (String.length password < 6)%nat ->
      AuthService.register bcrypt e password repo
      = Throw (BadRequestException
                 "Password must be at least 6 characters long"))
  /\ (AuthService.register bcrypt e password repo
      = Throw (BadRequestException "Email already exists") ->
      AuthService.isValidEmail e = true
      /\ (6 <= String.length password)%nat
      /\ registered e repo)
  /\ (forall ex,
        AuthService.register bcrypt e password repo = Throw ex ->
        classOf ex = BadRequest).
Proof.
  unfold AuthService.register, UserRepo.findOneByEmail. unfold_monad.
  split; [|split; [|split]].
  - intros ->. reflexivity.
  - intros -> Hl. apply Nat.ltb_lt in Hl. now rewrite Hl.
  - destruct (AuthService.isValidEmail e); [|discriminate]. cbn [negb].
    destruct (String.length password <? 6)%nat eqn:Hl; [discriminate|].
    apply Nat.ltb_ge in Hl.
    destruct (find (fun u => user_email u =? e) (users repo)) as [u|] eqn:F.
    + intros _. repeat split; auto. apply find_email_registered. eauto.
    + unfold UserRepo.save. discriminate.
  - intros ex. destruct (AuthService.isValidEmail e); cbn [negb].
    + destruct (String.length password <? 6)%nat.
      * intros H. inversion H. reflexivity.
      * destruct (find (fun u => user_email u =? e) (users repo)).
        -- intros H. inversion H. reflexivity.
        -- unfold UserRepo.save. discriminate.
    + intros H. inversion H. reflexivity.
Qed.

Lemma register_error_order_witness :
  AuthService.register Sample.bcrypt "bad-email" "123" Sample.oneUser
  = Throw (BadRequestException "Invalid email format")
  /\ AuthService.register Sample.bcrypt "test@example.com" "123"
       Sample.oneUser
     = Throw (BadRequestException
                "Password must be at least 6 characters long").
Proof.
  split.
  - apply (proj1 (register_error_order Sample.bcrypt "bad-email" "123"
                    Sample.oneUser)).
    reflexivity.
  - apply (proj1 (proj2 (register_error_order Sample.bcrypt
                           "test@example.com" "123" Sample.oneUser))).
    + reflexivity.
    + simpl. lia.
Defined.

Lemma invalidStatus_false (v : option string) :
  v = None \/ v = Some "" \/ (exists s, v = Some s /\ In s TaskStatus.values) ->
  TasksService.invalidStatus v = false.
Proof.
  intros [->|[->|[s [-> Hin]]]]; try reflexivity.
  unfold TasksService.invalidStatus. cbn [Js.valueOf].
  apply includes_In in Hin. rewrite Hin. apply andb_false_r.
Qed.

(** X17. The checks of [create] and [update], in their order.  With a title
    that is not empty, a status that is not empty and not in the enum is
    reported as "Invalid task status" whatever the due date; a due date that
    does not parse is reported, as "Invalid due date format", only when the
    status is absent, empty or in the enum.  The same order holds in
    [update] for a task that exists and that the acting user may act on. *)
Theorem task_check_order (dateParse : string -> option Z) :
  (forall dto u repo s,
      Js.truthy (dto_title dto) = true ->
      dto_status dto = Some s -> s <> "" -> ~ In s TaskStatus.values ->
      TasksService.create dateParse dto u repo
      = Throw (BadRequestException "Invalid task status"))
  /\ (forall dto u repo d,
        Js.truthy (dto_title dto) = true ->
        (dto_status dto = None \/ dto_status dto = Some ""
         \/ exists s, dto_status dto = Some s /\ In s TaskStatus.values) ->
        dto_dueDate dto = Some d -> d <> Js.DateStr "" ->
        TasksService.getTime dateParse d = None ->
        TasksService.create dateParse dto u repo
        = Throw (BadRequestException "Invalid due date format"))
  /\ (forall id patch u repo t d,
        find (TaskRepo.hasId id) (tasks repo) = Some t -> entitled u t ->
        (pt_status patch = None \/ pt_status patch = Some ""
         \/ exists s, pt_status patch = Some s /\ In s TaskStatus.values) ->
        pt_dueDate patch = Some d -> d <> Js.DateStr "" ->
        TasksService.getTime dateParse d = None ->
        TasksService.update dateParse id patch u repo
        = Throw (BadRequestException "Invalid due date format")).
Proof.
  split; [|split].
  - intros dto u repo s Ht Hs Hne Hnot. unfold TasksService.create.
    rewrite Ht, Hs, (invalidStatus_true s Hne Hnot). reflexivity.
  - intros dto u repo d Ht Hs Hd Hne Hnan. unfold TasksService.create.
    rewrite Ht, (invalidStatus_false _ Hs), Hd,
      (invalidDate_true dateParse d Hne Hnan).
    reflexivity.
  - intros id patch u repo t d F He Hs Hd Hne Hnan.
    rewrite (update_after_findOne dateParse _ _ _ _ _
               (findOne_entitled id u repo t F He)).
    now rewrite (invalidStatus_false _ Hs), Hd,
      (invalidDate_true dateParse d Hne Hnan).
Qed.

Lemma task_check_order_witness :
  TasksService.create Sample.dateParse
    {| dto_title := Some "Test Task"; dto_description := None;
       dto_status := Some "BOGUS";
       dto_dueDate := Some (Js.DateStr "not-a-date") |}
    Sample.alice Sample.noTasks
  = Throw (BadRequestException "Invalid task status")
  /\ TasksService.create Sample.dateParse
       {| dto_title := Some "Test Task"; dto_description := None;
          dto_status := Some "DONE";
          dto_dueDate := Some (Js.DateStr "not-a-date") |}
       Sample.alice Sample.noTasks
     = Throw (BadRequestException "Invalid due date format").
Proof.
  destruct (task_check_order Sample.dateParse) as [A [B _]]. split.
  - apply A with (s := "BOGUS"); [reflexivity|reflexivity|discriminate|].
    simpl. intros [H|[H|[H|[]]]]; discriminate H.
  - apply B with (d := Js.DateStr "not-a-date");
      [reflexivity| |reflexivity|discriminate|reflexivity].
    right. right. exists "DONE". split; [reflexivity|].
    right. right. now left.
Defined.

(** ** Keys *)

Lemma NoDup_map_filter {A B} (f : A -> B) (q : A -> bool) (l : list A) :
  NoDup (map f l) -> NoDup (map f (filter q l)).
Proof.
  induction l as [|x l IH]; simpl; intros H; [constructor|].
  inversion H as [|a m Hnot Hn]; subst.
  destruct (q x); simpl; auto. constructor; auto.
  intros K. apply Hnot. apply in_map_iff in K. destruct K as [y [Hy Hin]].
  apply filter_In in Hin. apply in_map_iff. exists y. tauto.
Qed.

Lemma keysUnique_runCall (dateParse : string -> option Z) (c : TaskCall)
    (repo : TaskRepository) :
  callDtoShaped c -> keysIssued repo -> keysUnique repo ->
  keysUnique (runCall dateParse c repo).
Proof.
  unfold keysUnique. intros Hc Hk Hu.
  destruct c as [dto user|id patch user|id user]; simpl.
  - destruct (TasksService.create dateParse dto user repo) as [[t repo']|e]
      eqn:E; auto.
    apply create_ok in E. unfold TaskRepo.insert in E.
    inversion E; subst; clear E. cbn [tasks]. rewrite map_app. cbn [map task_id].
    apply NoDup_app; auto.
    + constructor; [intros []|constructor].
    + intros a Ha [K|[]]. subst a. apply in_map_iff in Ha.
      destruct Ha as [r [Hr Hin]]. destruct (Hk r Hin) as [n [Hn Hid]].
      rewrite Hid in Hr. apply genId_inj in Hr. lia.
  - destruct (TasksService.update dateParse id patch user repo)
      as [[t' repo']|e] eqn:E; auto.
    destruct (update_kept _ _ _ _ _ _ _ Hc E)
      as [t0 (_ & _ & _ & Hsame & Hrows & _)].
    rewrite Hrows, map_app. cbn [map].
    apply NoDup_app; [now apply NoDup_map_filter| |].
    + constructor; [intros []|constructor].
    + intros a Ha [K|[]]. subst a. apply in_map_iff in Ha.
      destruct Ha as [r [Hr Hin]]. apply filter_In in Hin.
      destruct Hin as [_ Hne]. rewrite Hsame in Hr. apply hasId_eq in Hr.
      rewrite Hr in Hne. discriminate.
  - destruct (TasksService.remove id user repo) as [[[] repo']|e] eqn:E; auto.
    destruct (remove_ok _ _ _ _ E) as [t0 [_ [_ R]]].
    unfold TaskRepo.remove, modify in R. inversion R; subst; clear R.
    cbn [tasks]. now apply NoDup_map_filter.
Qed.

(** X18. Keys stay unique.  On a table whose keys are pairwise different and
    were issued by the counter, and whose owner columns agree with the
    owners, all of this still holds after any calls of [create], [update]
    and [remove] in which no patch names the key or the owner: no call
    makes two tasks share a key. *)
Theorem keys_stay_unique
    (dateParse : string -> option Z) (cs : list TaskCall)
    (repo : TaskRepository) :
  Forall callDtoShaped cs ->
  keysUnique repo -> keysIssued repo -> joined repo ->
  keysUnique (runCalls dateParse cs repo)
  /\ keysIssued (runCalls dateParse cs repo)
  /\ joined (runCalls dateParse cs repo).
Proof.
  unfold runCalls. intros Hcs. revert repo.
  induction Hcs as [|c cs Hc _ IH]; simpl; intros repo Hu Hk Hj; auto.
  destruct (keysIssued_joined_runCall dateParse c repo Hc (conj Hk Hj))
    as [Hk' Hj'].
  apply IH; auto. now apply keysUnique_runCall.
Qed.

Lemma keys_stay_unique_witness :
  keysUnique (Sample.created 15 Sample.alice).
Proof.
  apply (keys_stay_unique Sample.dateParse
           (repeat (CallCreate (Sample.dto "Task") Sample.alice) 15)
           Sample.noTasks).
  - repeat constructor.
  - constructor.
  - intros t [].
  - intros t [].
Defined.
